(** * sentinel-app server: a shallow embedding of [server/main.py] and
    [server/app/api/routes_auth.py]

    The two modules wire a FastAPI application to a SQLModel/SQLAlchemy engine
    on a local SQLite file.  The module-level statements of the program are
    embedded one by one under their own names ([sqlite_file_name], [engine],
    [create_db_and_tables], [get_session], [router], [app], [on_startup],
    [root]).  The calls they make into the host libraries (the SQLite driver,
    [MetaData.create_all], [Session], the Starlette router and the ASGI
    lifespan protocol) are embedded as far as the program exercises them;
    each such definition says which library routine it stands for. *)

From Stdlib Require Import ZArith Ascii.
From stdpp Require Import base option list strings gmap.

#[local] Set Warnings "-register-all".

(** ** Values *)

(** Python dictionaries and strings as they reach a JSON response.  A [dict]
    keeps its insertion order, hence the association list. *)
Inductive json : Type :=
  | JNull
  | JStr (s : string)
  | JObj (fields : list (string * json)).

(** Field lookup of a dictionary ([d.get(key)]). *)
Fixpoint assoc_get {A : Type} (key : string) (fields : list (string * A)) : option A :=
  match fields with
  | [] => None
  | (k, v) :: rest => if String.eqb k key then Some v else assoc_get key rest
  end.

Definition json_get (key : string) (j : json) : option json :=
  match j with
  | JObj fields => assoc_get key fields
  | _ => None
  end.

(** Exceptions that cross the program's own frames. *)
Inductive exn : Type :=
  | OperationalError (msg : string)
  | HTTPException (status_code : Z) (detail : string)
  | CancelledError
  | GeneratorExit
  | RuntimeError (msg : string).

Inductive result (A : Type) : Type :=
  | Ok (a : A)
  | Raise (e : exn).
Arguments Ok {A} a.
Arguments Raise {A} e.

Definition is_ok {A : Type} (r : result A) : bool :=
  match r with Ok _ => true | Raise _ => false end.

(** ** Storage: the file system as the SQLite driver sees it *)

(** A table of a database file: its name and its rows. *)
Record table : Type := Table { table_name : string; table_rows : list (list string) }.

(** A database file is its catalogue (the rows of [sqlite_master]), in
    creation order. *)
Abbreviation database := (list table).

(** [files] maps a path to the database stored there; [unopenable] holds the
    paths at which the driver cannot open or create a file (missing or
    read-only directory, unreachable volume). *)
Record disk : Type := Disk { files : gmap string database; unopenable : gset string }.

(** ** Routes, routers and the application object *)

(** The callables a route can point to: the four documentation endpoints
    that [FastAPI()] defines in its own [setup], and the program's [root]. *)
Inductive endpoint : Type :=
  | Ep_openapi
  | Ep_swagger_ui_html
  | Ep_swagger_ui_redirect
  | Ep_redoc_html
  | Ep_root.

(** Callables registered for the ["startup"] event. *)
Inductive event_handler : Type :=
  | Eh_on_startup.

Record route : Type := Route {
  route_path : string;
  route_methods : list string;
  route_endpoint : endpoint;
  route_status_code : Z;
  (** documentation of additional responses, copied into the OpenAPI schema *)
  route_responses : list (Z * json);
  route_tags : list string;
}.

Record APIRouter : Type := MkAPIRouter {
  router_prefix : string;
  router_tags : list string;
  router_responses : list (Z * json);
  router_routes : list route;
  router_on_startup : list event_handler;
}.

(** The OpenAPI document that [get_openapi] generates from the title, the
    version and the route table of an application.  Its content is not
    modelled. *)
Inductive openapi_schema : Type :=
  | GeneratedSchema.

Record FastAPI : Type := MkFastAPI {
  app_routes : list route;
  app_on_startup : list event_handler;
  app_redirect_slashes : bool;
  (** [self.openapi_schema]: [None] until the document is first asked for *)
  app_openapi_schema : option openapi_schema;
}.

(** ** The engine *)

Record Engine : Type := MkEngine {
  engine_url : string;
  engine_database : string;
  engine_connect_args : list (string * bool);
  (** connections handed out by the pool and not yet returned *)
  engine_checkedout : nat;
}.

(** Strings: [strip_prefix p s] is [Some rest] when [s = p ++ rest]
    ([s.startswith(p)], with what follows the prefix). *)
Fixpoint strip_prefix (p s : string) : option string :=
  match p, s with
  | EmptyString, _ => Some s
  | String a p', String b s' => if Ascii.eqb a b then strip_prefix p' s' else None
  | String _ _, EmptyString => None
  end.

(** ** Process state and the monad of the program's effects *)

(** A [Session] object: whether it currently holds a connection of the pool
    for its transaction. *)
Record Session : Type := MkSession { session_connected : bool }.

(** The disk, the module globals ([engine], [app]; Python globals are
    mutable, so they are carried in the state) and the heap of [Session]
    objects, a session being referred to by its index. *)
Record process : Type := Process {
  proc_disk : disk;
  proc_engine : Engine;
  proc_app : FastAPI;
  proc_sessions : list Session;
}.

Definition M (A : Type) : Type := process → result A * process.

Definition ret {A : Type} (a : A) : M A := λ st, (Ok a, st).
Definition raise {A : Type} (e : exn) : M A := λ st, (Raise e, st).
Definition bind {A B : Type} (m : M A) (k : A → M B) : M B :=
  λ st, match m st with
        | (Ok a, st') => k a st'
        | (Raise e, st') => (Raise e, st')
        end.
(** [finally m cleanup]: run [cleanup] whether [m] returns or raises, and
    pass on the outcome of [m] (a [with] block whose [__exit__] returns
    [None]); an exception of the clean-up itself replaces it. *)
Definition finally {A : Type} (m : M A) (cleanup : M unit) : M A :=
  λ st, match m st with
        | (r, st') =>
            match cleanup st' with
            | (Ok _, st'') => (r, st'')
            | (Raise e, st'') => (Raise e, st'')
            end
        end.
(** [try_ m]: run [m] and hand its outcome, value or exception, to the
    continuation (a [try] statement around [m]). *)
Definition try_ {A : Type} (m : M A) : M (result A) :=
  λ st, match m st with (r, st') => (Ok r, st') end.
Definition get : M process := λ st, (Ok st, st).
Definition modify (f : process → process) : M unit := λ st, (Ok tt, f st).

(** The program is written with stdpp's monad notations [x ← m; k] and
    [m;; k]. *)
#[global] Instance M_ret : MRet M := @ret.
#[global] Instance M_bind : MBind M := λ A B k m, bind m k.

Definition set_disk (d : disk) (st : process) : process :=
  Process d (proc_engine st) (proc_app st) (proc_sessions st).
Definition set_checkedout (n : nat) (st : process) : process :=
  let e := proc_engine st in
  Process (proc_disk st)
          (MkEngine (engine_url e) (engine_database e) (engine_connect_args e) n)
          (proc_app st) (proc_sessions st).
Definition set_sessions (l : list Session) (st : process) : process :=
  Process (proc_disk st) (proc_engine st) (proc_app st) l.
Definition set_openapi_schema (schema : option openapi_schema) (a : FastAPI) : FastAPI :=
  MkFastAPI (app_routes a) (app_on_startup a) (app_redirect_slashes a) schema.
Definition set_app (a : FastAPI) (st : process) : process :=
  Process (proc_disk st) (proc_engine st) a (proc_sessions st).

(** ** The SQLite driver and the connection pool *)

(** [sqlite3.connect(path)]: fails where the file cannot be opened, creates
    an empty file where none exists, and otherwise leaves the disk alone. *)
Definition sqlite3_connect (path : string) : M unit :=
  st ← get;
  let d := proc_disk st in
  if decide (path ∈ unopenable d) then
    raise (OperationalError "unable to open database file")
  else
    match files d !! path with
    | Some _ => mret tt
    | None => modify (set_disk (Disk (<[path := []]> (files d)) (unopenable d)))
    end.

(** Taking a connection from the engine's pool and giving it back. *)
Definition pool_checkout : M unit :=
  st ← get;
  sqlite3_connect (engine_database (proc_engine st));;
  modify (λ st, set_checkedout (S (engine_checkedout (proc_engine st))) st).

Definition pool_checkin : M unit :=
  modify (λ st, set_checkedout (pred (engine_checkedout (proc_engine st))) st).

(** ** Schema creation ([MetaData.create_all]) *)

(** A declared table model: its name (columns play no part below). *)
Record table_decl : Type := TableDecl { decl_name : string }.

Definition has_table (name : string) (db : database) : bool :=
  existsb (λ t, String.eqb (table_name t) name) db.

(** [CREATE TABLE name]: an error when the table is already there. *)
Definition create_table (name : string) : M unit :=
  st ← get;
  let d := proc_disk st in
  let path := engine_database (proc_engine st) in
  let db := default [] (files d !! path) in
  if has_table name db then
    raise (OperationalError ("table " ++ name ++ " already exists"))
  else
    modify (set_disk (Disk (<[path := db ++ [Table name []]]> (files d)) (unopenable d))).

(** The pass of [create_all] over the declared tables with
    [checkfirst=True]: a table is created only when the catalogue does not
    have it.  The declared names are the keys of [metadata.tables]. *)
Fixpoint create_tables (decls : list table_decl) : M unit :=
  match decls with
  | [] => mret tt
  | t :: rest =>
      st ← get;
      let db := default [] (files (proc_disk st) !! engine_database (proc_engine st)) in
      (if has_table (decl_name t) db then mret tt else create_table (decl_name t));;
      create_tables rest
  end.

(** [metadata.create_all(engine)]: [with engine.begin() as conn:] around the
    loop, so the connection goes back to the pool on every exit. *)
Definition create_all (metadata : list table_decl) : M unit :=
  pool_checkout;;
  finally (create_tables metadata) pool_checkin.

(** ** Sessions *)

(** [Session(engine)]: a new object on the heap; it takes no connection
    until it is first used. *)
Definition Session_new : M nat :=
  st ← get;
  modify (set_sessions (proc_sessions st ++ [MkSession false]));;
  mret (length (proc_sessions st)).

Definition connected (session : nat) (st : process) : bool :=
  match proc_sessions st !! session with
  | Some s => session_connected s
  | None => false
  end.

(** First use inside a transaction: the session checks a connection out of
    the pool unless it already holds one. *)
Definition Session_connection (session : nat) : M unit :=
  st ← get;
  if connected session st then mret tt
  else
    pool_checkout;;
    modify (λ st, set_sessions (<[session := MkSession true]> (proc_sessions st)) st).

(** End of the transaction ([commit], [rollback], [close]): the connection,
    if any, goes back to the pool.  The object stays usable. *)
Definition Session_release (session : nat) : M unit :=
  st ← get;
  if connected session st then
    pool_checkin;;
    modify (λ st, set_sessions (<[session := MkSession false]> (proc_sessions st)) st)
  else mret tt.

Definition Session_close (session : nat) : M unit := Session_release session.

(** [with Session(engine) as session: body]: [__exit__] closes the session
    and returns [None], so an exception of the body goes on. *)
Definition with_Session {A : Type} (session : nat) (body : M A) : M A :=
  finally body (Session_close session).

(** ** HTTP requests and responses *)

Record request : Type := Request {
  req_method : string;
  req_path : string;
  req_headers : list (string * string);
  req_body : string;
}.

(** The bodies the application can send.  [RedirectTo p] is the empty body
    of a redirect whose [location] is the request's URL with its path
    replaced by [p]; the three pages and the schema document are the ones
    FastAPI generates. *)
Inductive body : Type :=
  | JSONBody (content : json)
  | PlainText (text : string)
  | OpenAPIDocument
  | SwaggerUIPage
  | OAuth2RedirectPage
  | ReDocPage
  | RedirectTo (path : string)
  | NoBody.

Record response : Type := Response { status : Z; resp_body : body }.

(** ** [server/app/api/routes_auth.py] *)

Module routes_auth.

(** [router = APIRouter(prefix="/auth", tags=["auth"],
    responses={404: {"description": "Not found"}})]; the module adds no
    route and no event handler to it. *)
Definition router : APIRouter :=
  MkAPIRouter "/auth" ["auth"]
              [(404%Z, JObj [("description", JStr "Not found")])]
              [] [].

End routes_auth.

(** ** [server/main.py] *)

Definition sqlite_file_name : string := "database.db".
Definition sqlite_url : string := "sqlite:///" ++ sqlite_file_name.
Definition connect_args : list (string * bool) := [("check_same_thread", false)].

(** [engine = create_engine(sqlite_url, connect_args=connect_args)]: for
    the URL of the module, the file named after [sqlite:///] is the
    database; no connection is opened yet. *)
Definition engine : Engine := MkEngine sqlite_url sqlite_file_name connect_args 0.

(** [SQLModel.metadata]: the program declares no table model. *)
Definition SQLModel_metadata : list table_decl := [].

Definition create_db_and_tables : M unit := create_all SQLModel_metadata.

(** The generator [get_session], cut at its [yield].  [get_session_start]
    runs it up to the [yield] and gives the yielded session;
    [get_session_resume] runs it from the [yield] on, where the caller
    resumes it with [next], throws an exception into it, or closes it. *)
Inductive sent : Type :=
  | Sent_next
  | Sent_throw (e : exn)
  | Sent_close.

Definition get_session_start : M nat := Session_new.

Definition get_session_resume (session : nat) (how : sent) : M unit :=
  out ← try_ (with_Session session
                (match how with
                 | Sent_next => mret tt
                 | Sent_throw e => raise e
                 | Sent_close => raise GeneratorExit
                 end));
  match out, how with
  | Ok _, _ => mret tt
  | Raise GeneratorExit, Sent_close => mret tt
  | Raise e, _ => raise e
  end.

(** [FastAPI()]: [setup] registers the schema and documentation routes at
    their default URLs, as plain Starlette routes (a [GET] route also
    answers [HEAD]). *)
Definition docs_route (path : string) (ep : endpoint) : route :=
  Route path ["GET"; "HEAD"] ep 200 [] [].

Definition FastAPI_new : FastAPI :=
  MkFastAPI [ docs_route "/openapi.json" Ep_openapi;
              docs_route "/docs" Ep_swagger_ui_html;
              docs_route "/docs/oauth2-redirect" Ep_swagger_ui_redirect;
              docs_route "/redoc" Ep_redoc_html ]
            [] true None.

(** [app.include_router(router)]: every route of the router is added under
    the router's prefix, with the router's tags and documented responses;
    the router's event handlers are added too. *)
Definition include_router (r : APIRouter) (a : FastAPI) : FastAPI :=
  MkFastAPI
    (app_routes a ++
     map (λ rt, Route (router_prefix r ++ route_path rt) (route_methods rt)
                      (route_endpoint rt) (route_status_code rt)
                      (router_responses r ++ route_responses rt)
                      (router_tags r ++ route_tags rt))
         (router_routes r))
    (app_on_startup a ++ router_on_startup r)
    (app_redirect_slashes a)
    (app_openapi_schema a).

(** [@app.on_event("startup")] *)
Definition on_event_startup (h : event_handler) (a : FastAPI) : FastAPI :=
  MkFastAPI (app_routes a) (app_on_startup a ++ [h]) (app_redirect_slashes a)
            (app_openapi_schema a).

(** [@app.get(path)]: an [APIRoute] for [GET] only, status code 200. *)
Definition app_get (path : string) (ep : endpoint) (a : FastAPI) : FastAPI :=
  MkFastAPI (app_routes a ++ [Route path ["GET"] ep 200 [] []])
            (app_on_startup a) (app_redirect_slashes a) (app_openapi_schema a).

Definition app : FastAPI :=
  app_get "/" Ep_root
    (on_event_startup Eh_on_startup
       (include_router routes_auth.router FastAPI_new)).

Definition on_startup : M unit := create_db_and_tables.

Definition root : M json := mret (JObj [("message", JStr "Hello World")]).

(** ** Routing (Starlette's [Router] and the exception handlers) *)

Definition newline : string := String "010"%char EmptyString.

(** A route path without parameters compiles to the pattern [^path$], and
    Python's [$] also matches before a final newline. *)
Definition path_regex_match (pattern path : string) : bool :=
  String.eqb path pattern || String.eqb path (pattern ++ newline).

Inductive Match : Type := NONE | PARTIAL | FULL.

(** [not (self.methods and method not in self.methods)]: a route without a
    method set takes every method. *)
Definition method_allowed (r : route) (method : string) : bool :=
  match route_methods r with
  | [] => true
  | methods => existsb (String.eqb method) methods
  end.

(** [Route.matches] *)
Definition matches (r : route) (method path : string) : Match :=
  if path_regex_match (route_path r) path then
    if method_allowed r method then FULL else PARTIAL
  else NONE.

(** The loop of [Router.app]: the first full match wins; failing that, the
    first partial one. *)
Fixpoint first_match (routes : list route) (method path : string)
    (partial : option route) : option route :=
  match routes with
  | [] => partial
  | r :: rest =>
      match matches r method path with
      | FULL => Some r
      | PARTIAL =>
          first_match rest method path
                      (match partial with None => Some r | Some _ => partial end)
      | NONE => first_match rest method path partial
      end
  end.

(** [str.rstrip("/")] and [str.endswith("/")]. *)
Fixpoint rstrip_slash (s : string) : string :=
  match s with
  | EmptyString => EmptyString
  | String c s' =>
      match rstrip_slash s' with
      | EmptyString => if Ascii.eqb c "/" then EmptyString else String c EmptyString
      | r => String c r
      end
  end.

Fixpoint endswith_slash (s : string) : bool :=
  match s with
  | EmptyString => false
  | String c EmptyString => Ascii.eqb c "/"
  | String _ s' => endswith_slash s'
  end.

(** [FastAPI.openapi]: the document is generated at the first call and
    kept on the application object. *)
Definition openapi : M unit :=
  st ← get;
  match app_openapi_schema (proc_app st) with
  | Some _ => mret tt
  | None => modify (set_app (set_openapi_schema (Some GeneratedSchema) (proc_app st)))
  end.

(** Calling an endpoint.  The schema endpoint answers with the document of
    [openapi].  An [APIRoute] calls the function and wraps what it returns
    in a JSON response with the route's status code. *)
Definition call_endpoint (ep : endpoint) (status_code : Z) (req : request) : M response :=
  match ep with
  | Ep_openapi => openapi;; mret (Response 200 OpenAPIDocument)
  | Ep_swagger_ui_html => mret (Response 200 SwaggerUIPage)
  | Ep_swagger_ui_redirect => mret (Response 200 OAuth2RedirectPage)
  | Ep_redoc_html => mret (Response 200 ReDocPage)
  | Ep_root => content ← root; mret (Response status_code (JSONBody content))
  end.

(** [Route.handle] *)
Definition handle (r : route) (req : request) : M response :=
  if method_allowed r (req_method req) then
    call_endpoint (route_endpoint r) (route_status_code r) req
  else raise (HTTPException 405 "Method Not Allowed").

Definition not_found : M response := raise (HTTPException 404 "Not Found").

(** The path tried when no route matches: trailing slashes dropped, or
    one added. *)
Definition redirect_path (path : string) : string :=
  if endswith_slash path then rstrip_slash path else (path ++ "/")%string.

(** [Router.app] for an HTTP request. *)
Definition router_call (a : FastAPI) (req : request) : M response :=
  let path := req_path req in
  match first_match (app_routes a) (req_method req) path None with
  | Some r => handle r req
  | None =>
      if app_redirect_slashes a && negb (String.eqb path "/") then
        if existsb (λ r, path_regex_match (route_path r) (redirect_path path))
                   (app_routes a)
        then mret (Response 307 (RedirectTo (redirect_path path)))
        else not_found
      else not_found
  end.

Definition is_body_allowed_for_status_code (code : Z) : bool :=
  negb ((code <? 200)%Z || (code =? 204)%Z || (code =? 205)%Z || (code =? 304)%Z).

(** The application called with an HTTP request: an [HTTPException] becomes
    the JSON response [{"detail": ...}], any other [Exception] a plain 500;
    a cancellation is not an [Exception] and goes through. *)
Definition app_call (req : request) : M response :=
  st ← get;
  out ← try_ (router_call (proc_app st) req);
  match out with
  | Ok r => mret r
  | Raise (HTTPException code detail) =>
      if is_body_allowed_for_status_code code
      then mret (Response code (JSONBody (JObj [("detail", JStr detail)])))
      else mret (Response code NoBody)
  | Raise CancelledError => raise CancelledError
  | Raise GeneratorExit => raise GeneratorExit
  | Raise _ => mret (Response 500 (PlainText "Internal Server Error"))
  end.

(** ** Dependencies with [yield] ([SessionDep]) *)

(** What a path operation can do with the session it is given, and how it
    ends.  No route of the program declares [SessionDep]; the handlers below
    are the ones that could. *)
Inductive session_op : Type :=
  | Op_exec
  | Op_commit
  | Op_rollback
  | Op_close.

Inductive completion : Type :=
  | Returns (content : json)
  | Raises (e : exn)
  | Cancelled.

Record handler : Type := Handler {
  handler_ops : list session_op;
  handler_end : completion;
}.

Definition run_op (session : nat) (op : session_op) : M unit :=
  match op with
  | Op_exec => Session_connection session
  | Op_commit | Op_rollback | Op_close => Session_release session
  end.

Fixpoint run_ops (session : nat) (ops : list session_op) : M unit :=
  match ops with
  | [] => mret tt
  | op :: rest => run_op session op;; run_ops session rest
  end.

Definition run_handler (h : handler) (session : nat) : M json :=
  run_ops session (handler_ops h);;
  match handler_end h with
  | Returns content => mret content
  | Raises e => raise e
  | Cancelled => raise CancelledError
  end.

(** The exceptions that derive from [Exception]; a cancellation and
    [GeneratorExit] are [BaseException]s only. *)
Definition is_Exception (e : exn) : bool :=
  match e with
  | CancelledError | GeneratorExit => false
  | OperationalError _ | HTTPException _ _ | RuntimeError _ => true
  end.

(** How the generator is left for an outcome of the handler
    ([contextmanager_in_threadpool]): resumed after a return; thrown into
    for an [Exception]; for anything else, a cancellation, it is not
    resumed at all and is closed when it is finalised. *)
Definition exit_of (out : result json) : sent :=
  match out with
  | Ok _ => Sent_next
  | Raise e => if is_Exception e then Sent_throw e else Sent_close
  end.

(** FastAPI's handling of a request whose path operation depends on
    [get_session]: the generator is entered through an exit stack, the
    handler runs, and the generator is left as [exit_of] says.  The close
    of a generator that was not resumed is the interpreter's, when it
    finalises the generator; it is placed here at the end of the request. *)
Definition call_with_SessionDep (h : handler) : M json :=
  session ← get_session_start;
  out ← try_ (run_handler h session);
  get_session_resume session (exit_of out);;
  match out with
  | Ok content => mret content
  | Raise e => raise e
  end.

(** Requests that depend on [get_session], handled one after the other:
    the outcome of each and the state after the last. *)
Fixpoint call_each_with_SessionDep (hs : list handler) (st : process)
    : list (result json) * process :=
  match hs with
  | [] => ([], st)
  | h :: rest =>
      let '(r, st') := call_with_SessionDep h st in
      let '(rs, st'') := call_each_with_SessionDep rest st' in
      (r :: rs, st'')
  end.

(** How a handler ends when nothing before its end raises. *)
Definition completion_result (c : completion) : result json :=
  match c with
  | Returns content => Ok content
  | Raises e => Raise e
  | Cancelled => Raise CancelledError
  end.

(** ** The lifespan and the server *)

Definition call_event_handler (h : event_handler) : M unit :=
  match h with
  | Eh_on_startup => on_startup
  end.

(** [Router.startup]: the handlers of the ["startup"] event, in order; an
    exception of one of them ends the loop. *)
Fixpoint startup (handlers : list event_handler) : M unit :=
  match handlers with
  | [] => mret tt
  | h :: rest => call_event_handler h;; startup rest
  end.

(** The ASGI server around the application: it runs the lifespan start-up
    first; when that fails it exits, otherwise it goes on to hand requests
    to the application. *)
Inductive phase : Type := Uninitialized | Serving | Failed.

Record server : Type := Server { srv_phase : phase; srv_proc : process }.

Inductive event : Type :=
  | StartupComplete
  | StartupFailed (e : exn)
  | Handled (req : request) (res : result response).

Definition lifespan_startup (st : process) : result unit * process :=
  startup (app_on_startup (proc_app st)) st.

Inductive step : server → event → server → Prop :=
  | step_startup_complete s st' :
      srv_phase s = Uninitialized →
      lifespan_startup (srv_proc s) = (Ok tt, st') →
      step s StartupComplete (Server Serving st')
  | step_startup_failed s e st' :
      srv_phase s = Uninitialized →
      lifespan_startup (srv_proc s) = (Raise e, st') →
      step s (StartupFailed e) (Server Failed st')
  | step_request s req res st' :
      srv_phase s = Serving →
      app_call req (srv_proc s) = (res, st') →
      step s (Handled req res) (Server Serving st').

Inductive execution : server → list event → server → Prop :=
  | exec_nil s : execution s [] s
  | exec_step s ev s' tr s'' :
      step s ev s' → execution s' tr s'' → execution s (ev :: tr) s''.

(** The process after the two modules have been imported, on disk [d]. *)
Definition imported (d : disk) : process := Process d engine app [].

Definition boot (d : disk) : server := Server Uninitialized (imported d).

(** The same server as a function of the requests that arrive. *)
Fixpoint serve (reqs : list request) (st : process) : list event * process :=
  match reqs with
  | [] => ([], st)
  | req :: rest =>
      let '(res, st') := app_call req st in
      let '(tr, st'') := serve rest st' in
      (Handled req res :: tr, st'')
  end.

Definition run (d : disk) (reqs : list request) : list event * server :=
  match lifespan_startup (imported d) with
  | (Ok _, st) =>
      let '(tr, st') := serve reqs st in
      (StartupComplete :: tr, Server Serving st')
  | (Raise e, st) => ([StartupFailed e], Server Failed st)
  end.

Definition is_handled (ev : event) : bool :=
  match ev with Handled _ _ => true | _ => false end.

Definition is_startup (ev : event) : bool :=
  match ev with StartupComplete | StartupFailed _ => true | Handled _ _ => false end.

(** How often the start-up hook has run in a trace. *)
Definition startup_runs (tr : list event) : nat := length (filter is_startup tr).

(** ** Derived notions used in the statements *)

(** The path of the engine's database file and the catalogue stored there
    (empty when there is no file). *)
Definition db_path (st : process) : string := engine_database (proc_engine st).

Definition db_of (st : process) : database :=
  default [] (files (proc_disk st) !! db_path st).

Definition table_names (db : database) : list string := map table_name db.

Definition declares (metadata : list table_decl) (name : string) : bool :=
  existsb (λ t, String.eqb (decl_name t) name) metadata.

(** The value of a field of a JSON response body. *)
Definition body_field (key : string) (r : response) : option json :=
  match resp_body r with
  | JSONBody j => json_get key j
  | _ => None
  end.

(** The paths of the application's route table, and whether a request path
    is one of them, as the patterns match it. *)
Definition route_paths : list string :=
  ["/openapi.json"; "/docs"; "/docs/oauth2-redirect"; "/redoc"; "/"].

Definition names_route (path : string) : bool :=
  existsb (λ p, path_regex_match p path) route_paths.

(** Connections a session holds: one or none. *)
Definition held (session : nat) (st : process) : nat :=
  if connected session st then 1 else 0.

(** The invariant of a request that holds [session]: against the
    connections [c0] out before the request, the pool is up by what the
    session holds, and the other sessions are as in [ss0]. *)
Record balanced (session c0 : nat) (ss0 : list Session) (st : process) : Prop := Balanced {
  balanced_alloc : session < length (proc_sessions st);
  balanced_pool : engine_checkedout (proc_engine st) = c0 + held session st;
  balanced_others : ∀ i, i ≠ session → proc_sessions st !! i = ss0 !! i;
}.

(** [grown metadata st st1]: [st1] is [st] with the declared tables added
    to the catalogue, nothing else touched. *)
Record grown (metadata : list table_decl) (st st1 : process) : Prop := Grown {
  grown_engine : proc_engine st1 = proc_engine st;
  grown_app : proc_app st1 = proc_app st;
  grown_sessions : proc_sessions st1 = proc_sessions st;
  grown_unopenable : unopenable (proc_disk st1) = unopenable (proc_disk st);
  grown_tables : ∀ name,
    has_table name (db_of st1) = has_table name (db_of st) || declares metadata name;
  grown_file :
    is_Some (files (proc_disk st) !! db_path st) →
    is_Some (files (proc_disk st1) !! db_path st1);
  grown_nodup : NoDup (table_names (db_of st)) → NoDup (table_names (db_of st1));
}.

(** What a request does to the cached schema of the application: it leaves
    it as it is, or, for a request that the pattern of the schema route
    matches, stores the document where there was none. *)
Definition schema_after (req : request) (before after : option openapi_schema) : Prop :=
  after = before
  ∨ (before = None ∧ after = Some GeneratedSchema
     ∧ path_regex_match "/openapi.json" (req_path req) = true).

(** The outcomes of the router of [app], each the same in every state: the greeting, for [GET] on a path the pattern
    of ["/"] matches; a documentation page; a redirect; or one of the two
    HTTP errors. *)
Inductive routed (req : request) : result response → Prop :=
  | routed_root :
      req_method req = "GET" →
      path_regex_match "/" (req_path req) = true →
      routed req (Ok (Response 200 (JSONBody (JObj [("message", JStr "Hello World")]))))
  | routed_docs page :
      page ∈ [OpenAPIDocument; SwaggerUIPage; OAuth2RedirectPage; ReDocPage] →
      routed req (Ok (Response 200 page))
  | routed_redirect :
      routed req (Ok (Response 307 (RedirectTo (redirect_path (req_path req)))))
  | routed_not_allowed :
      routed req (Raise (HTTPException 405 "Method Not Allowed"))
  | routed_not_found :
      routed req (Raise (HTTPException 404 "Not Found")).

(** * Proofs *)

Ltac unfold_M :=
  unfold mbind, mret, M_bind, M_ret, bind, ret, get, modify, raise, try_, finally in *.

Section Schema.

Lemma has_table_snoc name new db :
  has_table name (db ++ [Table new []]) = has_table name db || String.eqb new name.
Proof.
  unfold has_table. rewrite existsb_app. simpl. by rewrite orb_false_r.
Qed.

Lemma create_table_fresh name st :
  has_table name (db_of st) = false →
  create_table name st =
    (Ok tt, set_disk (Disk (<[db_path st := db_of st ++ [Table name []]]> (files (proc_disk st)))
                           (unopenable (proc_disk st))) st).
Proof.
  intros Hfresh. unfold create_table. unfold_M.
  fold (db_path st). fold (db_of st). by rewrite Hfresh.
Qed.

Lemma db_of_after_create name st :
  db_of (set_disk (Disk (<[db_path st := db_of st ++ [Table name []]]> (files (proc_disk st)))
                        (unopenable (proc_disk st))) st)
  = db_of st ++ [Table name []].
Proof.
  unfold db_of at 1. simpl. unfold db_path at 1. simpl. fold (db_path st).
  by rewrite lookup_insert_eq.
Qed.

(** A second pass over tables that are all present changes nothing. *)
Lemma create_tables_present metadata st :
  (∀ t, t ∈ metadata → has_table (decl_name t) (db_of st) = true) →
  create_tables metadata st = (Ok tt, st).
Proof.
  induction metadata as [|t rest IH]; intros Hall; [reflexivity|].
  simpl. unfold_M. fold (db_path st). fold (db_of st).
  rewrite (Hall t) by (left). apply IH.
  intros t' Ht'. apply Hall. by right.
Qed.

Lemma has_table_false_not_in name db :
  has_table name db = false → name ∉ table_names db.
Proof.
  intros Hf Hin. unfold table_names in Hin.
  apply list_elem_of_fmap in Hin as (t & -> & Ht).
  unfold has_table in Hf.
  assert (existsb (λ t0, String.eqb (table_name t0) (table_name t)) db = true) as Hex.
  { apply existsb_exists. exists t. split; [by apply list_elem_of_In|apply String.eqb_refl]. }
  congruence.
Qed.

Lemma create_tables_run metadata : ∀ st,
  ∃ st1, create_tables metadata st = (Ok tt, st1) ∧ grown metadata st st1.
Proof.
  induction metadata as [|t rest IH]; intros st.
  - exists st. split; [reflexivity|].
    constructor; try done. intros name. simpl. by rewrite orb_false_r.
  - simpl. unfold_M. fold (db_path st). fold (db_of st).
    destruct (has_table (decl_name t) (db_of st)) eqn:Hhas.
    + destruct (IH st) as (st1 & Hrun & G). exists st1. split; [exact Hrun|].
      destruct G. constructor; try done.
      intros name. rewrite grown_tables0. simpl.
      destruct (String.eqb (decl_name t) name) eqn:E; [|reflexivity].
      apply String.eqb_eq in E. subst name. by rewrite Hhas.
    + rewrite (create_table_fresh _ _ Hhas).
      set (st' := set_disk _ st).
      destruct (IH st') as (st1 & Hrun & G). exists st1. split; [exact Hrun|].
      assert (db_of st' = db_of st ++ [Table (decl_name t) []]) as Hdb
        by apply db_of_after_create.
      destruct G. constructor; try done.
      * intros name. rewrite grown_tables0, Hdb, has_table_snoc. simpl.
        by rewrite orb_assoc.
      * intros _. apply grown_file0. subst st'. simpl.
        unfold db_path at 2. simpl. fold (db_path st).
        rewrite lookup_insert_eq. by eexists.
      * intros Hnd. apply grown_nodup0. rewrite Hdb.
        unfold table_names. rewrite map_app. simpl.
        apply NoDup_app. split; [exact Hnd|]. split.
        -- intros x Hx Hx'. apply list_elem_of_singleton in Hx'. subst x.
           by apply (has_table_false_not_in _ _ Hhas).
        -- apply NoDup_singleton.
Qed.

End Schema.

Section CreateAll.

Lemma sqlite3_connect_unopenable path st :
  path ∈ unopenable (proc_disk st) →
  sqlite3_connect path st = (Raise (OperationalError "unable to open database file"), st).
Proof.
  intros Hin. unfold sqlite3_connect. unfold_M.
  by destruct (decide (path ∈ unopenable (proc_disk st))).
Qed.

Lemma sqlite3_connect_existing path st :
  path ∉ unopenable (proc_disk st) →
  is_Some (files (proc_disk st) !! path) →
  sqlite3_connect path st = (Ok tt, st).
Proof.
  intros Hnot [db Hdb]. unfold sqlite3_connect. unfold_M.
  destruct (decide (path ∈ unopenable (proc_disk st))); [done|].
  by rewrite Hdb.
Qed.

(** Opening creates the file when it is missing and never changes a
    catalogue. *)
Lemma sqlite3_connect_openable st :
  db_path st ∉ unopenable (proc_disk st) →
  ∃ st1, sqlite3_connect (db_path st) st = (Ok tt, st1) ∧ grown [] st st1
         ∧ is_Some (files (proc_disk st1) !! db_path st1)
         ∧ db_of st1 = db_of st.
Proof.
  intros Hnot. unfold sqlite3_connect. unfold_M.
  destruct (decide (db_path st ∈ unopenable (proc_disk st))); [done|].
  destruct (files (proc_disk st) !! db_path st) as [db|] eqn:Hdb.
  - exists st. split; [reflexivity|]. split; [|split; [by eexists|reflexivity]].
    constructor; try done. intros name. simpl. by rewrite orb_false_r.
  - eexists. split; [reflexivity|].
    assert (∀ d u, db_of (set_disk (Disk (<[db_path st := d]> (files (proc_disk st))) u) st) = d)
      as Hdb'.
    { intros d u. unfold db_of. simpl. unfold db_path at 1. simpl. fold (db_path st).
      by rewrite lookup_insert_eq. }
    assert (db_of st = []) as Hnil by (unfold db_of; by rewrite Hdb).
    split; [|split].
    + constructor; try done.
      * intros name. rewrite Hdb', Hnil. reflexivity.
      * intros _. simpl. unfold db_path at 2. simpl. fold (db_path st).
        rewrite lookup_insert_eq. by eexists.
      * intros _. rewrite Hdb'. constructor.
    + simpl. unfold db_path at 2. simpl. fold (db_path st).
      rewrite lookup_insert_eq. by eexists.
    + by rewrite Hdb', Hnil.
Qed.

Lemma create_all_unopenable metadata st :
  db_path st ∈ unopenable (proc_disk st) →
  create_all metadata st = (Raise (OperationalError "unable to open database file"), st).
Proof.
  intros Hin. unfold create_all, pool_checkout. unfold_M.
  fold (db_path st). by rewrite (sqlite3_connect_unopenable _ _ Hin).
Qed.

(** On storage that can be opened, [create_all] returns; afterwards the
    file exists and holds every declared table. *)
Lemma create_all_openable metadata st :
  db_path st ∉ unopenable (proc_disk st) →
  ∃ st1, create_all metadata st = (Ok tt, st1) ∧ grown metadata st st1
         ∧ is_Some (files (proc_disk st1) !! db_path st1).
Proof.
  intros Hnot.
  destruct (sqlite3_connect_openable st Hnot) as (sc & Hconn & Gc & Hfile & Hdbc).
  unfold create_all, pool_checkout. unfold_M. fold (db_path st). rewrite Hconn.
  set (sc' := set_checkedout _ sc).
  destruct (create_tables_run metadata sc') as (st1 & Hrun & G).
  rewrite Hrun. unfold pool_checkin. unfold_M.
  eexists. split; [reflexivity|].
  destruct Gc, G. subst sc'. simpl in *.
  assert (∀ n s, db_of (set_checkedout n s) = db_of s) as Hco by reflexivity.
  assert (∀ n s, db_path (set_checkedout n s) = db_path s) as Hcp by reflexivity.
  split.
  - constructor; simpl.
    + rewrite grown_engine1. simpl. rewrite <- grown_engine0.
      by destruct (proc_engine sc).
    + congruence.
    + congruence.
    + congruence.
    + intros name. rewrite Hco, grown_tables1, Hco, Hdbc. reflexivity.
    + intros _. rewrite Hcp. apply grown_file1. by rewrite Hcp.
    + intros Hnd. rewrite Hco. apply grown_nodup1. rewrite Hco, Hdbc. exact Hnd.
  - simpl. rewrite Hcp. apply grown_file1. by rewrite Hcp.
Qed.

(** Once the file exists with every declared table, [create_all] is the
    identity. *)
Lemma create_all_settled metadata st :
  db_path st ∉ unopenable (proc_disk st) →
  is_Some (files (proc_disk st) !! db_path st) →
  (∀ t, t ∈ metadata → has_table (decl_name t) (db_of st) = true) →
  create_all metadata st = (Ok tt, st).
Proof.
  intros Hnot Hfile Hall.
  unfold create_all, pool_checkout. unfold_M. fold (db_path st).
  rewrite (sqlite3_connect_existing _ _ Hnot Hfile).
  rewrite create_tables_present by exact Hall.
  unfold pool_checkin. unfold_M. simpl.
  by destruct st as [d [u p a n] ap ss].
Qed.

Lemma declares_member metadata t :
  t ∈ metadata → declares metadata (decl_name t) = true.
Proof.
  intros Hin. apply existsb_exists. exists t.
  split; [by apply list_elem_of_In|apply String.eqb_refl].
Qed.

(** [create_all] is idempotent for every declared metadata. *)
Lemma create_all_again metadata st st1 :
  create_all metadata st = (Ok tt, st1) →
  create_all metadata st1 = (Ok tt, st1).
Proof.
  intros Hfirst.
  destruct (decide (db_path st ∈ unopenable (proc_disk st))) as [Hin|Hnot].
  { rewrite (create_all_unopenable _ _ Hin) in Hfirst. discriminate. }
  destruct (create_all_openable metadata st Hnot) as (st1' & Hrun & G & Hfile).
  rewrite Hrun in Hfirst. injection Hfirst as <-.
  destruct G. apply create_all_settled.
  - unfold db_path. by rewrite grown_engine0, grown_unopenable0.
  - exact Hfile.
  - intros t Ht. rewrite grown_tables0, (declares_member _ _ Ht). apply orb_true_r.
Qed.

End CreateAll.

(** C3. On storage that can be opened, [create_db_and_tables] returns without
    an error from any starting state, a second call in succession returns
    too and leaves the state, on disk and elsewhere, as the first call left
    it, and the catalogue of the database is the one it started with, so it
    gains no duplicate. *)
Theorem create_db_and_tables_idempotent (st : process) :
  db_path st ∉ unopenable (proc_disk st) →
  ∃ st1,
    create_db_and_tables st = (Ok tt, st1)
    ∧ (create_db_and_tables;; create_db_and_tables) st = (Ok tt, st1)
    ∧ db_of st1 = db_of st
    ∧ (NoDup (table_names (db_of st)) → NoDup (table_names (db_of st1))).
Proof.
  intros Hnot. unfold create_db_and_tables.
  destruct (create_all_openable SQLModel_metadata st Hnot) as (st1 & Hrun & G & _).
  exists st1. split; [exact Hrun|]. split; [|split].
  - unfold mbind, M_bind, bind. rewrite Hrun.
    exact (create_all_again _ _ _ Hrun).
  - destruct G. unfold db_of in *.
    destruct (sqlite3_connect_openable st Hnot) as (sc & Hconn & _ & _ & Hdbc).
    revert Hrun. unfold create_all, pool_checkout, SQLModel_metadata. unfold_M.
    fold (db_path st). rewrite Hconn. simpl. intros [= <-]. exact Hdbc.
  - apply (grown_nodup _ _ _ G).
Qed.

Lemma create_db_and_tables_idempotent_witness :
  ∃ st1,
    create_db_and_tables
      (imported (Disk {["database.db" := [Table "hero" [["1"; "Deadpond"]]]]} ∅)) = (Ok tt, st1)
    ∧ (create_db_and_tables;; create_db_and_tables)
        (imported (Disk {["database.db" := [Table "hero" [["1"; "Deadpond"]]]]} ∅)) = (Ok tt, st1)
    ∧ db_of st1 = db_of (imported (Disk {["database.db" := [Table "hero" [["1"; "Deadpond"]]]]} ∅))
    ∧ (NoDup (table_names
                (db_of (imported (Disk {["database.db" := [Table "hero" [["1"; "Deadpond"]]]]} ∅)))) →
       NoDup (table_names (db_of st1))).
Proof.
  apply (create_db_and_tables_idempotent
           (imported (Disk {["database.db" := [Table "hero" [["1"; "Deadpond"]]]]} ∅))).
  vm_compute. discriminate.
Defined.

Section Routing.

Variables (d : disk) (e : Engine) (ss : list Session) (schema : option openapi_schema).

(** C1. A [GET] request for ["/"] is answered with status 200 and the body
    [{"message": "Hello World"}], whatever its headers and body and
    whatever the state of the disk, the engine and the sessions, and
    whether or not the application has its schema cached. *)
Theorem root_returns_hello_world (headers : list (string * string)) (payload : string) :
  fst (app_call (Request "GET" "/" headers payload)
         (Process d e (set_openapi_schema schema app) ss))
  = Ok (Response 200 (JSONBody (JObj [("message", JStr "Hello World")]))).
Proof. reflexivity. Qed.

(** C8. Handling [GET "/"] leaves the whole state as it was: the disk with
    every database file, the engine, the application object with its route
    table, event handlers and cached schema, and the sessions; and so does
    the [root] function itself in any state. *)
Theorem root_has_no_side_effects (headers : list (string * string)) (payload : string) :
  snd (app_call (Request "GET" "/" headers payload)
         (Process d e (set_openapi_schema schema app) ss))
  = Process d e (set_openapi_schema schema app) ss
  ∧ ∀ st, snd (root st) = st.
Proof. split; reflexivity. Qed.

End Routing.

(** C10. The [root] function returns [{"message": "Hello World"}] in every
    state, so any two invocations, under any two states of the disk and the
    engine, return the same value; the same holds for the responses of the
    application to [GET "/"], with or without a cached schema. *)
Theorem root_independent_of_state (st1 st2 : process) :
  fst (root st1) = Ok (JObj [("message", JStr "Hello World")])
  ∧ fst (root st1) = fst (root st2)
  ∧ ∀ h1 b1 h2 b2,
      fst (app_call (Request "GET" "/" h1 b1)
             (Process (proc_disk st1) (proc_engine st1)
                      (set_openapi_schema (app_openapi_schema (proc_app st1)) app)
                      (proc_sessions st1)))
      = fst (app_call (Request "GET" "/" h2 b2)
               (Process (proc_disk st2) (proc_engine st2)
                        (set_openapi_schema (app_openapi_schema (proc_app st2)) app)
                        (proc_sessions st2))).
Proof. repeat split. Qed.

(** The router on concrete requests. *)
Example rstrip_slash_docs : rstrip_slash "/docs///" = "/docs".
Proof. reflexivity. Qed.

Example rstrip_slash_only_slashes : rstrip_slash "//" = "".
Proof. reflexivity. Qed.

Example post_root_not_allowed :
  fst (app_call (Request "POST" "/" [] "") (imported (Disk ∅ ∅)))
  = Ok (Response 405 (JSONBody (JObj [("detail", JStr "Method Not Allowed")]))).
Proof. reflexivity. Qed.

Example docs_slash_redirected :
  fst (app_call (Request "GET" "/docs/" [] "") (imported (Disk ∅ ∅)))
  = Ok (Response 307 (RedirectTo "/docs")).
Proof. reflexivity. Qed.

Example root_newline_matches :
  fst (app_call (Request "GET" ("/" ++ newline) [] "") (imported (Disk ∅ ∅)))
  = Ok (Response 200 (JSONBody (JObj [("message", JStr "Hello World")]))).
Proof. reflexivity. Qed.

Section NotFound.

(** The route table, with the prefix and the zero routes of the mounted
    router. *)
Lemma app_route_paths : map route_path (app_routes app) = route_paths.
Proof. reflexivity. Qed.

Lemma names_route_app path :
  existsb (λ r, path_regex_match (route_path r) path) (app_routes app) = names_route path.
Proof. reflexivity. Qed.

(** With no route matching the path, the loop keeps the partial match it
    started with. *)
Lemma first_match_none routes method path partial :
  existsb (λ r, path_regex_match (route_path r) path) routes = false →
  first_match routes method path partial = partial.
Proof.
  induction routes as [|r rest IH]; intros Hex; [reflexivity|].
  simpl in Hex. apply orb_false_elim in Hex as [Hr Hrest].
  simpl. unfold matches. rewrite Hr. by apply IH.
Qed.

(** A path that no route matches, directly or after the slash change, is
    answered with the standard 404 and the state is left alone. *)
Lemma unmatched_is_404 method path headers payload d e ss schema :
  names_route path = false →
  names_route (redirect_path path) = false →
  app_call (Request method path headers payload)
           (Process d e (set_openapi_schema schema app) ss)
  = (Ok (Response 404 (JSONBody (JObj [("detail", JStr "Not Found")]))),
     Process d e (set_openapi_schema schema app) ss).
Proof.
  intros Hp Hr. unfold app_call, router_call. unfold_M. cbn [proc_app req_path req_method].
  rewrite first_match_none by (rewrite names_route_app; exact Hp).
  rewrite names_route_app, Hr. cbn [app_redirect_slashes app app_get on_event_startup include_router FastAPI_new].
  by destruct (negb (String.eqb path "/")).
Qed.

Lemma strip_prefix_Some p : ∀ s rest, strip_prefix p s = Some rest → s = (p ++ rest)%string.
Proof.
  induction p as [|a p IH]; intros s rest H; simpl in H.
  - by injection H as ->.
  - destruct s as [|b s]; [discriminate|].
    destruct (Ascii.eqb a b) eqn:E; [|discriminate].
    apply Ascii.eqb_eq in E. subst b. apply IH in H. subst s. reflexivity.
Qed.

Lemma rstrip_slash_cons c s :
  Ascii.eqb c "/" = false → rstrip_slash (String c s) = String c (rstrip_slash s).
Proof. intros Hc. simpl. rewrite Hc. by destruct (rstrip_slash s). Qed.

(** No route path begins with ["/a"]. *)
Lemma names_route_slash_a rest : names_route (String "/" (String "a" rest)) = false.
Proof. reflexivity. Qed.

Lemma redirect_path_slash_a rest :
  ∃ rest', redirect_path (String "/" (String "a" rest)) = String "/" (String "a" rest').
Proof.
  unfold redirect_path.
  destruct (endswith_slash (String "/" (String "a" rest))).
  - exists (rstrip_slash rest).
    change (rstrip_slash (String "/" (String "a" rest)))
      with (match rstrip_slash (String "a" rest) with
            | EmptyString => EmptyString
            | r => String "/" r
            end).
    by rewrite rstrip_slash_cons.
  - by eexists.
Qed.

End NotFound.

(** C2, as the program has it. Every request for a path that begins with
    ["/auth/"], with any method, is answered with status 404 and the body
    [{"detail": "Not Found"}] of the framework, and the state is left alone,
    whether or not the application has its schema cached.  The entry [{"description": "Not found"}] is held by the router as the
    documentation of its routes' 404 response; the router has no route, and
    no route of the application has a documented response. *)
Theorem auth_paths_not_found (method path : string) (headers : list (string * string))
    (payload : string) (d : disk) (e : Engine) (ss : list Session)
    (schema : option openapi_schema) :
  is_Some (strip_prefix "/auth/" path) →
  app_call (Request method path headers payload)
           (Process d e (set_openapi_schema schema app) ss)
  = (Ok (Response 404 (JSONBody (JObj [("detail", JStr "Not Found")]))),
     Process d e (set_openapi_schema schema app) ss)
  ∧ router_responses routes_auth.router = [(404%Z, JObj [("description", JStr "Not found")])]
  ∧ router_routes routes_auth.router = []
  ∧ Forall (λ r, route_responses r = []) (app_routes app).
Proof.
  intros [rest Hrest]. apply strip_prefix_Some in Hrest. subst path.
  split; [|split; [reflexivity|split; [reflexivity|]]].
  - apply unmatched_is_404; [apply names_route_slash_a|].
    destruct (redirect_path_slash_a ("uth/" ++ rest)%string) as [rest' Hr].
    change ("/auth/" ++ rest)%string with (String "/" (String "a" ("uth/" ++ rest)%string)).
    rewrite Hr. apply names_route_slash_a.
  - repeat constructor.
Qed.

Lemma auth_paths_not_found_witness :
  app_call (Request "POST" "/auth/login" [("content-type", "application/json")] "{}")
           (imported (Disk ∅ ∅))
  = (Ok (Response 404 (JSONBody (JObj [("detail", JStr "Not Found")]))), imported (Disk ∅ ∅))
  ∧ router_responses routes_auth.router = [(404%Z, JObj [("description", JStr "Not found")])]
  ∧ router_routes routes_auth.router = []
  ∧ Forall (λ r, route_responses r = []) (app_routes app).
Proof.
  apply (auth_paths_not_found "POST" "/auth/login" [("content-type", "application/json")] "{}"
           (Disk ∅ ∅) engine [] None).
  simpl. by eexists.
Defined.

(** C2, as stated, fails: the 404 sent for ["/auth/login"] has the body
    [{"detail": "Not Found"}], which has no ["description"] field. *)
Lemma auth_response_without_description :
  app_call (Request "GET" "/auth/login" [] "") (imported (Disk ∅ ∅))
  = (Ok (Response 404 (JSONBody (JObj [("detail", JStr "Not Found")]))), imported (Disk ∅ ∅))
  ∧ body_field "description" (Response 404 (JSONBody (JObj [("detail", JStr "Not Found")]))) = None
  ∧ resp_body (Response 404 (JSONBody (JObj [("detail", JStr "Not Found")])))
    ≠ JSONBody (JObj [("description", JStr "Not found")]).
Proof. split; [reflexivity|]. split; [reflexivity|]. discriminate. Qed.

(** C9, as the program has it. The program's own statements add one route,
    [GET "/"], and mounting the auth router adds none; with the four
    documentation routes of [FastAPI()] the table has five paths.  A request,
    with any method, whose path is none of the five, also after the slash
    change, is answered with the standard 404, whether or not the
    application has its schema cached. *)
Theorem only_route_paths_are_served (method path : string) (headers : list (string * string))
    (payload : string) (d : disk) (e : Engine) (ss : list Session)
    (schema : option openapi_schema) :
  names_route path = false →
  names_route (redirect_path path) = false →
  app_call (Request method path headers payload)
           (Process d e (set_openapi_schema schema app) ss)
  = (Ok (Response 404 (JSONBody (JObj [("detail", JStr "Not Found")]))),
     Process d e (set_openapi_schema schema app) ss)
  ∧ app_routes app = app_routes FastAPI_new ++ [Route "/" ["GET"] Ep_root 200 [] []]
  ∧ (∀ a, app_routes (include_router routes_auth.router a) = app_routes a)
  ∧ map route_path (app_routes app) = route_paths.
Proof.
  intros Hp Hr. split; [by apply unmatched_is_404|].
  split; [reflexivity|]. split; [|reflexivity].
  intros a. unfold include_router. simpl. apply app_nil_r.
Qed.

Lemma only_route_paths_are_served_witness :
  app_call (Request "GET" "/items/42" [] "") (imported (Disk ∅ ∅))
  = (Ok (Response 404 (JSONBody (JObj [("detail", JStr "Not Found")]))), imported (Disk ∅ ∅))
  ∧ app_routes app = app_routes FastAPI_new ++ [Route "/" ["GET"] Ep_root 200 [] []]
  ∧ (∀ a, app_routes (include_router routes_auth.router a) = app_routes a)
  ∧ map route_path (app_routes app) = route_paths.
Proof.
  apply (only_route_paths_are_served "GET" "/items/42" [] "" (Disk ∅ ∅) engine [] None);
    reflexivity.
Defined.

(** C9, as stated, fails: ["/docs"] is not ["/"], and a [GET] for it is
    answered with status 200 and the Swagger UI page. *)
Lemma docs_path_is_served :
  "/docs" ≠ "/"
  ∧ app_call (Request "GET" "/docs" [] "") (imported (Disk ∅ ∅))
    = (Ok (Response 200 SwaggerUIPage), imported (Disk ∅ ∅))
  ∧ length (app_routes app) = 5.
Proof. split; [discriminate|]. split; reflexivity. Qed.

Section Lifecycle.

(** The start-up of the application is one call of
    [create_db_and_tables]. *)
Lemma lifespan_startup_imported d :
  lifespan_startup (imported d) = create_db_and_tables (imported d).
Proof.
  unfold lifespan_startup. simpl. unfold on_startup. unfold_M.
  by destruct (create_db_and_tables (imported d)) as [[[]|] ?].
Qed.

Lemma step_from_serving s ev s' :
  srv_phase s = Serving → step s ev s' → is_handled ev = true ∧ srv_phase s' = Serving.
Proof. intros Hs Hstep. inversion Hstep; subst; simpl; (done || congruence). Qed.

Lemma step_from_failed s ev s' : srv_phase s = Failed → ¬ step s ev s'.
Proof. intros Hs Hstep. inversion Hstep; congruence. Qed.

Lemma execution_serving s tr s' :
  srv_phase s = Serving → execution s tr s' →
  Forall (λ ev, is_handled ev = true) tr ∧ srv_phase s' = Serving.
Proof.
  intros Hs Hex. induction Hex as [s|s ev s1 tr s2 Hstep Hex IH]; [by split|].
  destruct (step_from_serving _ _ _ Hs Hstep) as [Hev Hs1].
  destruct (IH Hs1) as [Htr Hs2]. split; [by constructor|done].
Qed.

Lemma execution_failed s tr s' :
  srv_phase s = Failed → execution s tr s' → tr = [] ∧ s' = s.
Proof.
  intros Hs Hex. destruct Hex as [s|s ev s1 tr s2 Hstep Hex]; [done|].
  by destruct (step_from_failed _ _ _ Hs Hstep).
Qed.

(** The shapes of a trace of the server from its boot. *)
Lemma execution_boot_shape d tr s :
  execution (boot d) tr s →
  (tr = [] ∧ s = boot d)
  ∨ (∃ st1 tr', lifespan_startup (imported d) = (Ok tt, st1)
                ∧ tr = StartupComplete :: tr'
                ∧ Forall (λ ev, is_handled ev = true) tr'
                ∧ srv_phase s = Serving)
  ∨ (∃ e st1, lifespan_startup (imported d) = (Raise e, st1)
              ∧ tr = [StartupFailed e] ∧ s = Server Failed st1).
Proof.
  intros Hex. inversion Hex as [|s0 ev s1 tr' s2 Hstep Hrest]; subst; [by left|].
  right. inversion Hstep as [s0 st1 Hph Hrun|s0 e st1 Hph Hrun|s0 req res st1 Hph Hrun]; subst.
  - left. destruct (execution_serving (Server Serving st1) tr' s eq_refl Hrest) as [Htr Hs].
    exists st1, tr'. by repeat split.
  - right. destruct (execution_failed (Server Failed st1) tr' s eq_refl Hrest) as [-> ->].
    by exists e, st1.
  - discriminate Hph.
Qed.

Lemma startup_runs_handled tr :
  Forall (λ ev, is_handled ev = true) tr → startup_runs tr = 0.
Proof.
  unfold startup_runs. induction 1 as [|ev tr Hev _ IH]; [reflexivity|].
  destruct ev; try discriminate. simpl. exact IH.
Qed.

(** The function [run] produces an execution of the server. *)
Lemma serve_execution reqs : ∀ st,
  execution (Server Serving st) (fst (serve reqs st)) (Server Serving (snd (serve reqs st))).
Proof.
  induction reqs as [|req rest IH]; intros st; [constructor|].
  simpl. destruct (app_call req st) as [res st1] eqn:Hcall.
  specialize (IH st1). destruct (serve rest st1) as [tr st2]. simpl in *.
  econstructor; [|exact IH]. by constructor.
Qed.

Lemma run_execution d reqs : execution (boot d) (fst (run d reqs)) (snd (run d reqs)).
Proof.
  unfold run. destruct (lifespan_startup (imported d)) as [[[]|e] st1] eqn:Hstart.
  - pose proof (serve_execution reqs st1) as Hserve.
    destruct (serve reqs st1) as [tr st2]. simpl in *.
    econstructor; [|exact Hserve]. by constructor.
  - simpl. econstructor; [|constructor]. by constructor.
Qed.

End Lifecycle.

(** C4. In every execution of the server from its boot, the first thing that
    happens is the start-up, which is one call of [create_db_and_tables]: it
    completes or it fails before anything else.  Every request that is
    handled comes strictly after a completed start-up, so after a call of
    [create_db_and_tables] that returned, and the start-up runs once in any
    execution that has begun, never twice. *)
Theorem startup_precedes_requests (d : disk) (tr : list event) (s : server) :
  execution (boot d) tr s →
  (tr ≠ [] → startup_runs tr = 1 ∧ ∃ ev, head tr = Some ev ∧ is_startup ev = true)
  ∧ startup_runs tr ≤ 1
  ∧ lifespan_startup (imported d) = create_db_and_tables (imported d)
  ∧ ∀ i req res,
      tr !! i = Some (Handled req res) →
      0 < i ∧ tr !! 0 = Some StartupComplete
      ∧ ∃ st1, create_db_and_tables (imported d) = (Ok tt, st1).
Proof.
  intros Hex.
  destruct (execution_boot_shape d tr s Hex)
    as [[-> _]|[(st1 & tr' & Hrun & -> & Htr & _)|(e & st1 & Hrun & -> & _)]].
  - split; [done|]. split; [unfold startup_runs; simpl; lia|]. split; [apply lifespan_startup_imported|].
    intros i req res Hi. by rewrite lookup_nil in Hi.
  - assert (startup_runs (StartupComplete :: tr') = 1) as Hone.
    { unfold startup_runs. simpl. f_equal. apply (startup_runs_handled tr' Htr). }
    split; [intros _; split; [exact Hone|by exists StartupComplete]|].
    split; [lia|]. split; [apply lifespan_startup_imported|].
    intros i req res Hi. destruct i as [|i]; [discriminate|].
    split; [lia|]. split; [reflexivity|].
    exists st1. by rewrite <- lifespan_startup_imported.
  - split; [intros _; split; [reflexivity|by exists (StartupFailed e)]|].
    split; [unfold startup_runs; simpl; lia|].
    split; [apply lifespan_startup_imported|].
    intros i req res Hi. destruct i as [|[|i]]; discriminate.
Qed.

Lemma startup_precedes_requests_witness :
  (fst (run (Disk ∅ ∅) [Request "GET" "/" [] ""; Request "GET" "/auth/me" [] ""]) ≠ [] →
   startup_runs (fst (run (Disk ∅ ∅) [Request "GET" "/" [] ""; Request "GET" "/auth/me" [] ""])) = 1
   ∧ ∃ ev, head (fst (run (Disk ∅ ∅) [Request "GET" "/" [] ""; Request "GET" "/auth/me" [] ""]))
           = Some ev ∧ is_startup ev = true)
  ∧ startup_runs (fst (run (Disk ∅ ∅) [Request "GET" "/" [] ""; Request "GET" "/auth/me" [] ""])) ≤ 1
  ∧ lifespan_startup (imported (Disk ∅ ∅)) = create_db_and_tables (imported (Disk ∅ ∅))
  ∧ ∀ i req res,
      fst (run (Disk ∅ ∅) [Request "GET" "/" [] ""; Request "GET" "/auth/me" [] ""]) !! i
      = Some (Handled req res) →
      0 < i
      ∧ fst (run (Disk ∅ ∅) [Request "GET" "/" [] ""; Request "GET" "/auth/me" [] ""]) !! 0
        = Some StartupComplete
      ∧ ∃ st1, create_db_and_tables (imported (Disk ∅ ∅)) = (Ok tt, st1).
Proof.
  apply (startup_precedes_requests (Disk ∅ ∅) _
           (snd (run (Disk ∅ ∅) [Request "GET" "/" [] ""; Request "GET" "/auth/me" [] ""]))).
  apply run_execution.
Defined.

(** C6. When [create_db_and_tables] raises at start-up, the server goes to
    its failed state and stops: an execution holds at most the one failed
    start-up, no request is ever handled, the start-up is not tried again,
    and no step leaves the failed state. *)
Theorem failed_startup_serves_nothing (d : disk) (e : exn) (st1 : process)
    (tr : list event) (s : server) :
  create_db_and_tables (imported d) = (Raise e, st1) →
  execution (boot d) tr s →
  (tr = [] ∨ (tr = [StartupFailed e] ∧ s = Server Failed st1))
  ∧ Forall (λ ev, is_handled ev = false) tr
  ∧ startup_runs tr ≤ 1
  ∧ ∀ ev s', ¬ step (Server Failed st1) ev s'.
Proof.
  intros Hfail Hex. rewrite <- lifespan_startup_imported in Hfail.
  assert (∀ ev s', ¬ step (Server Failed st1) ev s') as Hstuck
    by (intros ev s'; by apply step_from_failed).
  destruct (execution_boot_shape d tr s Hex)
    as [[-> _]|[(st2 & tr' & Hrun & _)|(e' & st2 & Hrun & -> & ->)]].
  - split; [by left|]. split; [constructor|]. split; [unfold startup_runs; simpl; lia|exact Hstuck].
  - congruence.
  - rewrite Hfail in Hrun. injection Hrun as <- <-.
    split; [by right|]. split; [by repeat constructor|].
    split; [unfold startup_runs; simpl; lia|exact Hstuck].
Qed.

Lemma failed_startup_serves_nothing_witness :
  (fst (run (Disk ∅ {["database.db"]}) [Request "GET" "/" [] ""]) = []
   ∨ (fst (run (Disk ∅ {["database.db"]}) [Request "GET" "/" [] ""])
      = [StartupFailed (OperationalError "unable to open database file")]
      ∧ snd (run (Disk ∅ {["database.db"]}) [Request "GET" "/" [] ""])
        = Server Failed (imported (Disk ∅ {["database.db"]}))))
  ∧ Forall (λ ev, is_handled ev = false)
           (fst (run (Disk ∅ {["database.db"]}) [Request "GET" "/" [] ""]))
  ∧ startup_runs (fst (run (Disk ∅ {["database.db"]}) [Request "GET" "/" [] ""])) ≤ 1
  ∧ ∀ ev s', ¬ step (Server Failed (imported (Disk ∅ {["database.db"]}))) ev s'.
Proof.
  apply (failed_startup_serves_nothing (Disk ∅ {["database.db"]})
           (OperationalError "unable to open database file")
           (imported (Disk ∅ {["database.db"]}))).
  - reflexivity.
  - apply run_execution.
Defined.

(** C7. Started on a disk that has no file [database.db] and lets one be
    created, the server completes its start-up and answers [GET "/"] with
    status 200 and [{"message": "Hello World"}]; afterwards [database.db]
    exists and its catalogue is empty. *)
Theorem fresh_start_scenario (d : disk) (headers : list (string * string)) (payload : string) :
  files d !! "database.db" = None →
  "database.db" ∉ unopenable d →
  ∃ s,
    run d [Request "GET" "/" headers payload]
    = ([StartupComplete;
        Handled (Request "GET" "/" headers payload)
                (Ok (Response 200 (JSONBody (JObj [("message", JStr "Hello World")]))))], s)
    ∧ execution (boot d)
        [StartupComplete;
         Handled (Request "GET" "/" headers payload)
                 (Ok (Response 200 (JSONBody (JObj [("message", JStr "Hello World")]))))] s
    ∧ srv_phase s = Serving
    ∧ files (proc_disk (srv_proc s)) !! "database.db" = Some [].
Proof.
  intros Hnone Hopen.
  assert (lifespan_startup (imported d)
          = (Ok tt, imported (Disk (<["database.db" := []]> (files d)) (unopenable d)))) as Hstart.
  { rewrite lifespan_startup_imported.
    unfold create_db_and_tables, create_all, pool_checkout, sqlite3_connect, pool_checkin.
    unfold_M. simpl. unfold sqlite_file_name.
    destruct (decide ("database.db" ∈ unopenable d)); [done|].
    by rewrite Hnone. }
  pose proof (run_execution d [Request "GET" "/" headers payload]) as Hex.
  revert Hex. unfold run. rewrite Hstart. simpl. intros Hex.
  eexists. split; [reflexivity|]. split; [exact Hex|]. split; [reflexivity|].
  simpl. apply lookup_insert_eq.
Qed.

Lemma fresh_start_scenario_witness :
  ∃ s,
    run (Disk ∅ ∅) [Request "GET" "/" [] ""]
    = ([StartupComplete;
        Handled (Request "GET" "/" [] "")
                (Ok (Response 200 (JSONBody (JObj [("message", JStr "Hello World")]))))], s)
    ∧ execution (boot (Disk ∅ ∅))
        [StartupComplete;
         Handled (Request "GET" "/" [] "")
                 (Ok (Response 200 (JSONBody (JObj [("message", JStr "Hello World")]))))] s
    ∧ srv_phase s = Serving
    ∧ files (proc_disk (srv_proc s)) !! "database.db" = Some [].
Proof.
  apply (fresh_start_scenario (Disk ∅ ∅) [] "").
  - reflexivity.
  - vm_compute. discriminate.
Defined.

Section Sessions.

Variable session : nat.

Lemma pool_checkout_cases st :
  (∃ e, pool_checkout st = (Raise e, st))
  ∨ (∃ st1, pool_checkout st = (Ok tt, st1)
            ∧ proc_sessions st1 = proc_sessions st
            ∧ engine_checkedout (proc_engine st1) = S (engine_checkedout (proc_engine st))).
Proof.
  unfold pool_checkout, sqlite3_connect. unfold_M.
  destruct (decide (engine_database (proc_engine st) ∈ unopenable (proc_disk st)));
    [left; by eexists|right].
  destruct (files (proc_disk st) !! engine_database (proc_engine st));
    eexists; (split; [reflexivity|by split]).
Qed.

Lemma connected_insert (s : Session) st :
  session < length (proc_sessions st) →
  connected session (set_sessions (<[session := s]> (proc_sessions st)) st)
  = session_connected s.
Proof.
  intros Hlt. unfold connected. simpl. by rewrite list_lookup_insert_eq.
Qed.

Lemma Session_connection_balanced c0 ss0 st :
  balanced session c0 ss0 st →
  ∃ r st1, Session_connection session st = (r, st1) ∧ balanced session c0 ss0 st1.
Proof.
  intros [Hlt Hpool Hoth]. unfold Session_connection. unfold_M.
  unfold held in Hpool.
  destruct (connected session st) eqn:Hconn.
  { exists (Ok tt), st. split; [reflexivity|]. constructor; try done.
    unfold held. by rewrite Hconn. }
  destruct (pool_checkout_cases st) as [[e ->]|(st1 & -> & Hss & Hco)].
  { exists (Raise e), st. split; [reflexivity|]. constructor; try done.
    unfold held. by rewrite Hconn. }
  eexists _, _. split; [reflexivity|].
  assert (session < length (proc_sessions st1)) as Hlt1 by congruence.
  constructor.
  - simpl. by rewrite length_insert.
  - unfold held. rewrite (connected_insert _ _ Hlt1). simpl. lia.
  - intros i Hi. simpl. rewrite list_lookup_insert_ne by done.
    rewrite Hss. by apply Hoth.
Qed.

Lemma Session_release_balanced c0 ss0 st :
  balanced session c0 ss0 st →
  ∃ st1, Session_release session st = (Ok tt, st1)
         ∧ balanced session c0 ss0 st1
         ∧ connected session st1 = false.
Proof.
  intros [Hlt Hpool Hoth]. unfold Session_release, pool_checkin. unfold_M.
  unfold held in Hpool.
  destruct (connected session st) eqn:Hconn.
  - eexists. split; [reflexivity|].
    assert (session < length (proc_sessions
              (set_checkedout (Init.Nat.pred (engine_checkedout (proc_engine st))) st)))
      as Hlt1 by exact Hlt.
    split; [constructor|].
    + simpl. by rewrite length_insert.
    + unfold held. rewrite (connected_insert _ _ Hlt1). simpl. lia.
    + intros i Hi. simpl. rewrite list_lookup_insert_ne by done. by apply Hoth.
    + by rewrite (connected_insert _ _ Hlt1).
  - exists st. split; [reflexivity|]. split; [|exact Hconn].
    constructor; try done. unfold held. by rewrite Hconn.
Qed.

Lemma run_op_balanced c0 ss0 op st :
  balanced session c0 ss0 st →
  ∃ r st1, run_op session op st = (r, st1) ∧ balanced session c0 ss0 st1.
Proof.
  intros Hb. destruct op; simpl;
    [apply (Session_connection_balanced _ _ _ Hb)|..];
    destruct (Session_release_balanced _ _ _ Hb) as (st1 & -> & Hb1 & _);
    by eexists _, _.
Qed.

Lemma run_ops_balanced c0 ss0 ops : ∀ st,
  balanced session c0 ss0 st →
  ∃ r st1, run_ops session ops st = (r, st1) ∧ balanced session c0 ss0 st1.
Proof.
  induction ops as [|op rest IH]; intros st Hb.
  - by exists (Ok tt), st.
  - simpl. unfold_M.
    destruct (run_op_balanced c0 ss0 op st Hb) as (r & st1 & -> & Hb1).
    destruct r as [[]|e]; [by apply IH|by eexists _, _].
Qed.

Lemma run_handler_balanced c0 ss0 h st :
  balanced session c0 ss0 st →
  ∃ r st1, run_handler h session st = (r, st1) ∧ balanced session c0 ss0 st1
           ∧ match handler_end h with
             | Returns content => r = Ok content ∨ is_ok r = false
             | Raises _ | Cancelled => is_ok r = false
             end.
Proof.
  intros Hb. unfold run_handler. unfold_M.
  destruct (run_ops_balanced c0 ss0 (handler_ops h) st Hb) as (r & st1 & -> & Hb1).
  destruct r as [[]|e].
  - destruct (handler_end h); eexists _, _; (split; [reflexivity|]);
      (split; [exact Hb1|]); (by left) || done.
  - exists (Raise e), st1. split; [reflexivity|]. split; [exact Hb1|].
    destruct (handler_end h); (by right) || done.
Qed.

(** Resumed in any of the three ways, the generator closes its session:
    the session holds no connection afterwards and the pool has it back. *)
Lemma get_session_resume_balanced c0 ss0 how st :
  balanced session c0 ss0 st →
  ∃ st1, get_session_resume session how st
         = (match how with Sent_throw e => Raise e | _ => Ok tt end, st1)
         ∧ balanced session c0 ss0 st1
         ∧ connected session st1 = false
         ∧ engine_checkedout (proc_engine st1) = c0.
Proof.
  intros Hb. unfold get_session_resume, with_Session, Session_close. unfold_M.
  destruct (Session_release_balanced _ _ _ Hb) as (st1 & Hr & Hb1 & Hc).
  assert (engine_checkedout (proc_engine st1) = c0) as Hc0.
  { destruct Hb1 as [_ Hp _]. unfold held in Hp. rewrite Hc in Hp. lia. }
  exists st1. destruct how as [|e|]; rewrite Hr; simpl; try done.
  by destruct e.
Qed.

(** A successful first use leaves the session connected. *)
Lemma Session_connection_connects c0 ss0 st st1 :
  balanced session c0 ss0 st →
  Session_connection session st = (Ok tt, st1) →
  connected session st1 = true.
Proof.
  intros [Hlt _ _]. unfold Session_connection. unfold_M.
  destruct (connected session st) eqn:Hconn; [by intros [= <-]|].
  destruct (pool_checkout_cases st) as [[e ->]|(st' & -> & Hss & _)]; [discriminate|].
  intros [= <-]. apply connected_insert. by rewrite Hss.
Qed.

(** When the operations of a handler end with a use of the session and
    none of them raised, the session holds a connection. *)
Lemma run_ops_last_exec c0 ss0 ops : ∀ st st1,
  balanced session c0 ss0 st →
  last ops = Some Op_exec →
  run_ops session ops st = (Ok tt, st1) →
  connected session st1 = true.
Proof.
  induction ops as [|op rest IH]; intros st st1 Hb Hlast Hrun; [discriminate|].
  simpl in Hrun. unfold_M.
  destruct (run_op_balanced c0 ss0 op st Hb) as (r & sa & Hop & Hba).
  rewrite Hop in Hrun. destruct r as [[]|e]; [|discriminate].
  destruct rest as [|op' rest'].
  - simpl in Hrun. injection Hrun as <-. injection Hlast as ->.
    exact (Session_connection_connects _ _ _ _ Hb Hop).
  - exact (IH sa st1 Hba Hlast Hrun).
Qed.

(** A session that exists and holds no connection is a closed one. *)
Lemma closed_session st :
  session < length (proc_sessions st) →
  connected session st = false →
  proc_sessions st !! session = Some (MkSession false).
Proof.
  intros Hlt Hc. apply lookup_lt_is_Some in Hlt as [[b] Hs].
  unfold connected in Hc. rewrite Hs in Hc. simpl in Hc. by subst b.
Qed.

End Sessions.

Lemma Session_new_balanced st :
  Session_new st = (Ok (length (proc_sessions st)),
                    set_sessions (proc_sessions st ++ [MkSession false]) st)
  ∧ balanced (length (proc_sessions st)) (engine_checkedout (proc_engine st))
             (proc_sessions st ++ [MkSession false])
             (set_sessions (proc_sessions st ++ [MkSession false]) st).
Proof.
  split; [reflexivity|]. constructor.
  - simpl. rewrite length_app. simpl. lia.
  - unfold held, connected. simpl.
    rewrite lookup_app_r by lia. rewrite Nat.sub_diag. simpl. lia.
  - done.
Qed.

(** A request with [get_session], step by step: the state the handler
    leaves, and the state after the generator has been left in the way
    [how]. *)
Lemma request_with_session h st :
  ∃ out st1,
    run_handler h (length (proc_sessions st))
                (set_sessions (proc_sessions st ++ [MkSession false]) st) = (out, st1)
    ∧ balanced (length (proc_sessions st)) (engine_checkedout (proc_engine st))
               (proc_sessions st ++ [MkSession false]) st1
    ∧ match handler_end h with
      | Returns content => out = Ok content ∨ is_ok out = false
      | Raises _ | Cancelled => is_ok out = false
      end
    ∧ ∀ how, ∃ st2,
        get_session_resume (length (proc_sessions st)) how st1
        = (match how with Sent_throw e => Raise e | _ => Ok tt end, st2)
        ∧ balanced (length (proc_sessions st)) (engine_checkedout (proc_engine st))
                   (proc_sessions st ++ [MkSession false]) st2
        ∧ connected (length (proc_sessions st)) st2 = false
        ∧ engine_checkedout (proc_engine st2) = engine_checkedout (proc_engine st)
        ∧ (how = exit_of out → call_with_SessionDep h st = (out, st2)).
Proof.
  destruct (Session_new_balanced st) as [Hnew Hb0].
  destruct (run_handler_balanced _ _ _ h _ Hb0) as (out & st1 & Hrun & Hb1 & Hend).
  exists out, st1. do 3 (split; [done|]). intros how.
  destruct (get_session_resume_balanced _ _ _ how st1 Hb1) as (st2 & Hres & Hb2 & Hc & Hp).
  exists st2. do 4 (split; [done|]).
  intros ->. unfold call_with_SessionDep, get_session_start. unfold_M.
  rewrite Hnew, Hrun, Hres.
  destruct out as [content|e]; [reflexivity|].
  simpl. by destruct (is_Exception e).
Qed.

(** C5. For a request whose handler depends on [get_session]: a session is
    opened for it, and the handler runs with that session, which holds a
    connection of the pool when the handler's last operation used it.
    After the handler, whatever it did with the session, however it ended
    and whichever way the generator is left (resumed after a return, thrown
    into for an error, or closed without being resumed, as after a
    cancellation), the session is closed: it is on the heap holding no
    connection, the pool has as many connections out as before the
    request, and the sessions that existed before are untouched.  The
    request itself leaves the generator in the way [exit_of] gives for the
    handler's outcome, and ends in that outcome. *)
Theorem session_released_on_every_exit (h : handler) (how : sent) (st : process) :
  ∃ st0 out st1 st2,
    get_session_start st = (Ok (length (proc_sessions st)), st0)
    ∧ proc_sessions st0 = proc_sessions st ++ [MkSession false]
    ∧ run_handler h (length (proc_sessions st)) st0 = (out, st1)
    ∧ is_Some (proc_sessions st1 !! length (proc_sessions st))
    ∧ engine_checkedout (proc_engine st1)
      = engine_checkedout (proc_engine st) + held (length (proc_sessions st)) st1
    ∧ (last (handler_ops h) = Some Op_exec →
       fst (run_ops (length (proc_sessions st)) (handler_ops h) st0) = Ok tt →
       connected (length (proc_sessions st)) st1 = true)
    ∧ match handler_end h with
      | Returns content => out = Ok content ∨ is_ok out = false
      | Raises _ | Cancelled => is_ok out = false
      end
    ∧ get_session_resume (length (proc_sessions st)) how st1
      = (match how with Sent_throw e => Raise e | _ => Ok tt end, st2)
    ∧ proc_sessions st2 !! length (proc_sessions st) = Some (MkSession false)
    ∧ engine_checkedout (proc_engine st2) = engine_checkedout (proc_engine st)
    ∧ (∀ i, i < length (proc_sessions st) → proc_sessions st2 !! i = proc_sessions st !! i)
    ∧ (how = exit_of out → call_with_SessionDep h st = (out, st2)).
Proof.
  destruct (Session_new_balanced st) as [Hnew Hb0].
  destruct (request_with_session h st) as (out & st1 & Hrun & Hb1 & Hend & Hexit).
  destruct (Hexit how) as (st2 & Hres & Hb2 & Hc & Hp & Hcall).
  eexists _, out, st1, st2. split; [exact Hnew|]. split; [reflexivity|].
  split; [exact Hrun|].
  split; [apply lookup_lt_is_Some; by destruct Hb1|].
  split; [by destruct Hb1|]. split.
  { intros Hlast Hops.
    revert Hrun. unfold run_handler. unfold_M.
    destruct (run_ops _ (handler_ops h) _) as [[[]|e] sa] eqn:Hrun_ops; [|discriminate].
    intros Hrun.
    assert (sa = st1) as -> by (destruct (handler_end h); by injection Hrun).
    exact (run_ops_last_exec _ _ _ _ _ _ Hb0 Hlast Hrun_ops). }
  split; [exact Hend|]. split; [exact Hres|].
  split; [apply closed_session; [by destruct Hb2|exact Hc]|].
  split; [exact Hp|]. split; [|exact Hcall].
  intros i Hi. destruct Hb2 as [_ _ Hoth]. rewrite Hoth by lia. by apply lookup_app_l.
Qed.

(** * Further properties of the application *)

Section Dispatch.

(** What the loop of the router returns is the partial match it was given
    or a route of the table whose pattern matches the path. *)
Lemma first_match_Some routes method path : ∀ partial r,
  first_match routes method path partial = Some r →
  partial = Some r
  ∨ (r ∈ routes ∧ path_regex_match (route_path r) path = true).
Proof.
  induction routes as [|r0 rest IH]; intros partial r Hfm; simpl in Hfm; [by left|].
  unfold matches in Hfm.
  destruct (path_regex_match (route_path r0) path) eqn:Hpath.
  - destruct (method_allowed r0 method).
    + injection Hfm as <-. right. split; [by left|exact Hpath].
    + destruct (IH _ _ Hfm) as [Hp|[Hin Hm]].
      * destruct partial as [p|]; [by left|].
        injection Hp as <-. right. split; [by left|exact Hpath].
      * right. split; [by right|exact Hm].
  - destruct (IH _ _ Hfm) as [Hp|[Hin Hm]]; [by left|].
    right. split; [by right|exact Hm].
Qed.

Lemma handle_app_route r req :
  r ∈ app_routes app →
  path_regex_match (route_path r) (req_path req) = true →
  ∃ out,
    routed req out
    ∧ ∀ d e ss schema, ∃ schema',
        handle r req (Process d e (set_openapi_schema schema app) ss)
        = (out, Process d e (set_openapi_schema schema' app) ss)
        ∧ schema_after req schema schema'.
Proof.
  intros Hin Hpath. unfold handle.
  cbn in Hin. repeat (apply elem_of_cons in Hin as [->|Hin]);
    [..|by apply elem_of_nil in Hin];
    destruct (method_allowed _ (req_method req)) eqn:Hm;
    try (eexists; split; [by apply routed_not_allowed|];
         intros d e ss schema; exists schema; split; [reflexivity|by left]).
  - exists (Ok (Response 200 OpenAPIDocument)). split; [apply routed_docs; set_solver|].
    intros d e ss [[]|].
    + exists (Some GeneratedSchema). split; [reflexivity|by left].
    + exists (Some GeneratedSchema). split; [reflexivity|]. right. by repeat split.
  - exists (Ok (Response 200 SwaggerUIPage)). split; [apply routed_docs; set_solver|].
    intros d e ss schema. exists schema. split; [reflexivity|by left].
  - exists (Ok (Response 200 OAuth2RedirectPage)). split; [apply routed_docs; set_solver|].
    intros d e ss schema. exists schema. split; [reflexivity|by left].
  - exists (Ok (Response 200 ReDocPage)). split; [apply routed_docs; set_solver|].
    intros d e ss schema. exists schema. split; [reflexivity|by left].
  - eexists. split.
    + apply routed_root; [|exact Hpath].
      cbn in Hm. rewrite orb_false_r in Hm. by apply String.eqb_eq in Hm.
    + intros d e ss schema. exists schema. split; [reflexivity|by left].
Qed.

Lemma router_call_app req :
  ∃ out,
    routed req out
    ∧ ∀ d e ss schema, ∃ schema',
        router_call (set_openapi_schema schema app) req
                    (Process d e (set_openapi_schema schema app) ss)
        = (out, Process d e (set_openapi_schema schema' app) ss)
        ∧ schema_after req schema schema'.
Proof.
  unfold router_call. cbn [app_routes set_openapi_schema app_redirect_slashes].
  destruct (first_match (app_routes app) (req_method req) (req_path req) None) as [r|] eqn:Hfm.
  - apply first_match_Some in Hfm as [?|[Hin Hpath]]; [discriminate|].
    by apply handle_app_route.
  - destruct (app_redirect_slashes app && negb (String.eqb (req_path req) "/"));
      [destruct (existsb _ (app_routes app))|].
    + exists (Ok (Response 307 (RedirectTo (redirect_path (req_path req))))).
      split; [apply routed_redirect|].
      intros d e ss schema. exists schema. split; [reflexivity|by left].
    + exists (Raise (HTTPException 404 "Not Found")). split; [apply routed_not_found|].
      intros d e ss schema. exists schema. split; [reflexivity|by left].
    + exists (Raise (HTTPException 404 "Not Found")). split; [apply routed_not_found|].
      intros d e ss schema. exists schema. split; [reflexivity|by left].
Qed.

(** The application answers every request, with a response that the
    request alone decides, and hands the state back as it got it but for
    the schema that a request to the schema route leaves cached. *)
Lemma app_call_app req :
  ∃ resp,
    (routed req (Ok resp)
     ∨ resp = Response 405 (JSONBody (JObj [("detail", JStr "Method Not Allowed")]))
     ∨ resp = Response 404 (JSONBody (JObj [("detail", JStr "Not Found")])))
    ∧ ∀ d e ss schema, ∃ schema',
        app_call req (Process d e (set_openapi_schema schema app) ss)
        = (Ok resp, Process d e (set_openapi_schema schema' app) ss)
        ∧ schema_after req schema schema'.
Proof.
  destruct (router_call_app req) as (out & Hout & Hcall).
  assert (∀ resp,
            (out = Ok resp
             ∨ (∃ code detail, out = Raise (HTTPException code detail)
                               ∧ is_body_allowed_for_status_code code = true
                               ∧ resp = Response code (JSONBody (JObj [("detail", JStr detail)])))) →
            ∀ d e ss schema, ∃ schema',
              app_call req (Process d e (set_openapi_schema schema app) ss)
              = (Ok resp, Process d e (set_openapi_schema schema' app) ss)
              ∧ schema_after req schema schema') as Hlift.
  { intros resp Hresp d e ss schema.
    destruct (Hcall d e ss schema) as (schema' & Hrun & Hs).
    exists schema'. split; [|exact Hs].
    unfold app_call. unfold_M. cbn [proc_app]. rewrite Hrun.
    destruct Hresp as [->|(code & detail & -> & Hallowed & ->)]; [reflexivity|].
    by rewrite Hallowed. }
  destruct Hout as [Hm Hp|page Hpage| | |].
  - eexists. split; [left; by apply routed_root|]. apply Hlift. by left.
  - eexists. split; [left; by apply routed_docs|]. apply Hlift. by left.
  - eexists. split; [left; by apply routed_redirect|]. apply Hlift. by left.
  - eexists. split; [right; left; reflexivity|]. apply Hlift. right. by eexists _, _.
  - eexists. split; [right; right; reflexivity|]. apply Hlift. right. by eexists _, _.
Qed.

End Dispatch.

(** X1. [@app.get("/")] registers the greeting for [GET] alone: a request
    for ["/"] with any other method is answered with status 405 and the body
    [{"detail": "Method Not Allowed"}], and the state is left alone. *)
Theorem root_other_methods_not_allowed (method : string) (headers : list (string * string))
    (payload : string) (d : disk) (e : Engine) (ss : list Session)
    (schema : option openapi_schema) :
  method ≠ "GET" →
  app_call (Request method "/" headers payload)
           (Process d e (set_openapi_schema schema app) ss)
  = (Ok (Response 405 (JSONBody (JObj [("detail", JStr "Method Not Allowed")]))),
     Process d e (set_openapi_schema schema app) ss).
Proof.
  intros Hm. apply String.eqb_neq in Hm.
  unfold app_call, router_call. unfold_M. cbn [proc_app req_path req_method].
  cbn. unfold matches, method_allowed, path_regex_match. cbv [String.append newline]. cbn.
  rewrite Hm. cbn. unfold handle, method_allowed. cbn. rewrite Hm. reflexivity.
Qed.

Lemma root_other_methods_not_allowed_witness :
  app_call (Request "HEAD" "/" [] "") (imported (Disk ∅ ∅))
  = (Ok (Response 405 (JSONBody (JObj [("detail", JStr "Method Not Allowed")]))),
     imported (Disk ∅ ∅)).
Proof.
  apply (root_other_methods_not_allowed "HEAD" [] "" (Disk ∅ ∅) engine [] None).
  discriminate.
Defined.

(** The first request for the schema leaves it cached on the application
    object. *)
Example openapi_request_caches_schema :
  app_call (Request "GET" "/openapi.json" [] "") (imported (Disk ∅ ∅))
  = (Ok (Response 200 OpenAPIDocument),
     set_app (set_openapi_schema (Some GeneratedSchema) app) (imported (Disk ∅ ∅))).
Proof. reflexivity. Qed.

(** X2. No request touches the disk, the engine or the sessions, nor the
    route table and the event handlers of the application: whatever its
    method, path, headers and body, the state after the application has
    handled a request is the state before, but for the schema document,
    which a request matching the schema route leaves cached on the
    application object when it was not cached before.  No handler of the
    program opens a session or writes to the database. *)
Theorem requests_leave_state (req : request) (d : disk) (e : Engine) (ss : list Session)
    (schema : option openapi_schema) :
  ∃ schema',
    snd (app_call req (Process d e (set_openapi_schema schema app) ss))
    = Process d e (set_openapi_schema schema' app) ss
    ∧ (schema' = schema
       ∨ (schema = None ∧ schema' = Some GeneratedSchema
          ∧ path_regex_match "/openapi.json" (req_path req) = true)).
Proof.
  destruct (app_call_app req) as (resp & _ & Hcall).
  destruct (Hcall d e ss schema) as (schema' & -> & Hs).
  exists schema'. split; [reflexivity|exact Hs].
Qed.

(** X3. The answer to a request is a function of the request alone: on any
    two disks, engines and session heaps, with or without a cached schema,
    the application gives the same response. *)
Theorem responses_independent_of_state (req : request) (d1 d2 : disk) (e1 e2 : Engine)
    (ss1 ss2 : list Session) (schema1 schema2 : option openapi_schema) :
  fst (app_call req (Process d1 e1 (set_openapi_schema schema1 app) ss1))
  = fst (app_call req (Process d2 e2 (set_openapi_schema schema2 app) ss2)).
Proof.
  destruct (app_call_app req) as (resp & _ & Hcall).
  destruct (Hcall d1 e1 ss1 schema1) as (? & -> & _).
  by destruct (Hcall d2 e2 ss2 schema2) as (? & -> & _).
Qed.

(** X4. The application never fails on a request: it returns a response,
    never an exception, and the status is 200, 307, 404 or 405, never a
    server error. *)
Theorem no_server_error (req : request) (d : disk) (e : Engine) (ss : list Session)
    (schema : option openapi_schema) :
  ∃ resp,
    fst (app_call req (Process d e (set_openapi_schema schema app) ss)) = Ok resp
    ∧ (status resp = 200 ∨ status resp = 307 ∨ status resp = 404 ∨ status resp = 405)%Z.
Proof.
  destruct (app_call_app req) as (resp & Hresp & Hcall).
  destruct (Hcall d e ss schema) as (? & Hrun & _).
  exists resp. rewrite Hrun. split; [reflexivity|].
  destruct Hresp as [Hr | [-> | ->]]; [|by right; right; right|by right; right; left].
  inversion Hr; subst; simpl; tauto.
Qed.

(** X5. The greeting is sent for nothing but [GET "/"]: a response with the
    body [{"message": "Hello World"}] means that the method was [GET] and
    the path ["/"], or ["/"] followed by a newline, which the pattern of the
    route also matches. *)
Theorem hello_world_only_for_get_root (req : request) (d : disk) (e : Engine)
    (ss : list Session) (schema : option openapi_schema) (resp : response) :
  fst (app_call req (Process d e (set_openapi_schema schema app) ss)) = Ok resp →
  resp_body resp = JSONBody (JObj [("message", JStr "Hello World")]) →
  req_method req = "GET"
  ∧ (req_path req = "/" ∨ req_path req = ("/" ++ newline)%string)
  ∧ status resp = 200%Z.
Proof.
  intros Hcall Hbody.
  destruct (app_call_app req) as (resp' & Hresp & Hcall').
  destruct (Hcall' d e ss schema) as (? & Hrun & _).
  rewrite Hrun in Hcall. injection Hcall as ->.
  destruct Hresp as [Hr | [-> | ->]]; [|discriminate..].
  inversion Hr as [Hm Hp Heq|page Hpage Heq|Heq| |]; subst; try discriminate.
  - split; [exact Hm|]. split; [|reflexivity].
    unfold path_regex_match in Hp. apply orb_true_iff in Hp as [Hp|Hp];
      apply String.eqb_eq in Hp; [by left|by right].
  - simpl in Hbody. subst page.
    repeat (apply elem_of_cons in Hpage as [Hpage|Hpage]; [discriminate|]).
    by apply elem_of_nil in Hpage.
Qed.

Lemma hello_world_only_for_get_root_witness :
  req_method (Request "GET" "/" [("accept", "*/*")] "") = "GET"
  ∧ (req_path (Request "GET" "/" [("accept", "*/*")] "") = "/"
     ∨ req_path (Request "GET" "/" [("accept", "*/*")] "") = ("/" ++ newline)%string)
  ∧ status (Response 200 (JSONBody (JObj [("message", JStr "Hello World")]))) = 200%Z.
Proof.
  apply (hello_world_only_for_get_root (Request "GET" "/" [("accept", "*/*")] "")
           (Disk ∅ ∅) engine [] None
           (Response 200 (JSONBody (JObj [("message", JStr "Hello World")])))).
  - reflexivity.
  - reflexivity.
Defined.

Section StartupEffects.

(** What [create_db_and_tables] does to a state whose database file can be
    opened: the file is there afterwards with the catalogue it had, or an
    empty one. *)
Lemma create_db_and_tables_effect st :
  db_path st ∉ unopenable (proc_disk st) →
  create_db_and_tables st
  = (Ok tt, set_disk (Disk (<[db_path st := db_of st]> (files (proc_disk st)))
                           (unopenable (proc_disk st))) st).
Proof.
  intros Hopen.
  unfold create_db_and_tables, create_all, SQLModel_metadata, pool_checkout,
    sqlite3_connect, pool_checkin.
  unfold_M. cbn [create_tables]. unfold_M. fold (db_path st).
  destruct (decide (db_path st ∈ unopenable (proc_disk st))); [done|].
  unfold db_of. destruct (files (proc_disk st) !! db_path st) as [db|] eqn:Hdb; simpl.
  - rewrite (insert_id _ _ _ Hdb).
    by destruct st as [[fs un] [u p a k] ap ss].
  - by destruct st as [[fs un] [u p a k] ap ss].
Qed.

Lemma lifespan_startup_app st :
  proc_app st = app → lifespan_startup st = create_db_and_tables st.
Proof.
  intros Happ. unfold lifespan_startup. rewrite Happ. simpl. unfold on_startup. unfold_M.
  by destruct (create_db_and_tables st) as [[[]|] ?].
Qed.

(** A serving server whose application is [app] stays in the state it is
    in, but for the cached schema. *)
Lemma execution_serving_state s tr s' : ∀ d e ss schema,
  srv_phase s = Serving →
  srv_proc s = Process d e (set_openapi_schema schema app) ss →
  execution s tr s' →
  ∃ schema', srv_proc s' = Process d e (set_openapi_schema schema' app) ss.
Proof.
  intros d e ss schema Hph Hs Hex. revert schema Hph Hs.
  induction Hex as [s|s ev s1 tr s2 Hstep Hex IH]; intros schema Hph Hs; [by exists schema|].
  inversion Hstep as [? ? Hph'|? ? ? Hph'|s0 req res st1 _ Hcall]; subst; try congruence.
  rewrite Hs in Hcall.
  destruct (app_call_app req) as (resp & _ & Hresp).
  destruct (Hresp d e ss schema) as (schema1 & Hrun & _).
  rewrite Hrun in Hcall. injection Hcall as <- <-.
  by apply (IH schema1).
Qed.

End StartupEffects.

(** X6. [create_db_and_tables] keeps what is stored: where the database file
    can be opened it returns, the file exists afterwards and holds exactly
    the tables and rows it held before (none when it had to be created),
    every other file is untouched, and the engine, with no connection left
    checked out, the application and the sessions are as before. *)
Theorem create_db_and_tables_preserves_data (st : process) :
  db_path st ∉ unopenable (proc_disk st) →
  ∃ st1,
    create_db_and_tables st = (Ok tt, st1)
    ∧ files (proc_disk st1) !! db_path st = Some (db_of st)
    ∧ (∀ path, path ≠ db_path st →
         files (proc_disk st1) !! path = files (proc_disk st) !! path)
    ∧ unopenable (proc_disk st1) = unopenable (proc_disk st)
    ∧ proc_engine st1 = proc_engine st
    ∧ proc_app st1 = proc_app st
    ∧ proc_sessions st1 = proc_sessions st
    ∧ (is_Some (files (proc_disk st) !! db_path st) → st1 = st).
Proof.
  intros Hopen. eexists. split; [by apply create_db_and_tables_effect|].
  simpl. split; [apply lookup_insert_eq|]. split.
  { intros path Hne. by apply lookup_insert_ne. }
  do 4 (split; [reflexivity|]).
  intros [db Hdb]. unfold db_of. rewrite Hdb. simpl. rewrite (insert_id _ _ _ Hdb).
  by destruct st as [[fs un] e a ss].
Qed.

Lemma create_db_and_tables_preserves_data_witness :
  ∃ st1,
    create_db_and_tables
      (Process (Disk {["database.db" := [Table "hero" [["1"; "Deadpond"]]]]} ∅) engine app [])
    = (Ok tt, st1)
    ∧ files (proc_disk st1)
      !! db_path (Process (Disk {["database.db" := [Table "hero" [["1"; "Deadpond"]]]]} ∅)
                          engine app [])
      = Some (db_of (Process (Disk {["database.db" := [Table "hero" [["1"; "Deadpond"]]]]} ∅)
                             engine app []))
    ∧ (∀ path,
         path ≠ db_path (Process (Disk {["database.db" := [Table "hero" [["1"; "Deadpond"]]]]} ∅)
                                 engine app []) →
         files (proc_disk st1) !! path
         = files (proc_disk (Process (Disk {["database.db" := [Table "hero" [["1"; "Deadpond"]]]]} ∅)
                                     engine app [])) !! path)
    ∧ unopenable (proc_disk st1)
      = unopenable (proc_disk (Process (Disk {["database.db" := [Table "hero" [["1"; "Deadpond"]]]]} ∅)
                                       engine app []))
    ∧ proc_engine st1
      = proc_engine (Process (Disk {["database.db" := [Table "hero" [["1"; "Deadpond"]]]]} ∅)
                             engine app [])
    ∧ proc_app st1
      = proc_app (Process (Disk {["database.db" := [Table "hero" [["1"; "Deadpond"]]]]} ∅)
                          engine app [])
    ∧ proc_sessions st1
      = proc_sessions (Process (Disk {["database.db" := [Table "hero" [["1"; "Deadpond"]]]]} ∅)
                               engine app [])
    ∧ (is_Some (files (proc_disk (Process (Disk {["database.db" := [Table "hero" [["1"; "Deadpond"]]]]} ∅)
                                          engine app []))
                !! db_path (Process (Disk {["database.db" := [Table "hero" [["1"; "Deadpond"]]]]} ∅)
                                    engine app [])) →
       st1 = Process (Disk {["database.db" := [Table "hero" [["1"; "Deadpond"]]]]} ∅) engine app []).
Proof.
  apply (create_db_and_tables_preserves_data
           (Process (Disk {["database.db" := [Table "hero" [["1"; "Deadpond"]]]]} ∅) engine app [])).
  vm_compute. discriminate.
Defined.

(** X7. Where the database file cannot be opened, [create_db_and_tables]
    raises the driver's [OperationalError] and changes nothing: no file is
    created and no connection is left checked out. *)
Theorem create_db_and_tables_fails_cleanly (st : process) :
  db_path st ∈ unopenable (proc_disk st) →
  create_db_and_tables st
  = (Raise (OperationalError "unable to open database file"), st).
Proof. intros Hin. by apply create_all_unopenable. Qed.

Lemma create_db_and_tables_fails_cleanly_witness :
  create_db_and_tables (imported (Disk ∅ {["database.db"]}))
  = (Raise (OperationalError "unable to open database file"),
     imported (Disk ∅ {["database.db"]})).
Proof.
  apply (create_db_and_tables_fails_cleanly (imported (Disk ∅ {["database.db"]}))).
  vm_compute. reflexivity.
Defined.

(** X8. The disk is written at start-up and never after: once the start-up
    has run, whatever requests follow, the disk, the engine and the sessions
    are those [create_db_and_tables] left, and the application has the route
    table and event handlers of [app]; before the start-up the state is the
    imported one.  Only the schema cached on the application object can
    differ. *)
Theorem state_fixed_after_startup (d : disk) (tr : list event) (s : server) :
  execution (boot d) tr s →
  ∃ schema,
    srv_proc s
    = set_app (set_openapi_schema schema app)
              (match tr with
               | [] => imported d
               | _ :: _ => snd (create_db_and_tables (imported d))
               end).
Proof.
  intros Hex. inversion Hex as [|s0 ev s1 tr' s2 Hstep Hrest]; subst; [by exists None|].
  assert (∀ r st1, create_db_and_tables (imported d) = (r, st1) →
                   st1 = Process (proc_disk st1) (proc_engine st1)
                                 (set_openapi_schema None app) (proc_sessions st1)) as Happ.
  { intros r st1 Hrun.
    destruct (decide (db_path (imported d) ∈ unopenable (proc_disk (imported d)))) as [Hin|Hout].
    - unfold create_db_and_tables in Hrun.
      rewrite (create_all_unopenable _ _ Hin) in Hrun. by injection Hrun as <- <-.
    - rewrite (create_db_and_tables_effect _ Hout) in Hrun. by injection Hrun as <- <-. }
  inversion Hstep as [s0 st1 _ Hrun|s0 e st1 _ Hrun|s0 req res st1 Hph _]; subst;
    [| |discriminate Hph];
    simpl in Hrun; rewrite (lifespan_startup_app (imported d) eq_refl) in Hrun;
    rewrite Hrun; simpl.
  - destruct (execution_serving_state (Server Serving st1) tr' s _ _ _ _ eq_refl
                (Happ _ _ Hrun) Hrest) as (schema & ->).
    by exists schema.
  - destruct (execution_failed (Server Failed st1) tr' s eq_refl Hrest) as [_ ->].
    exists None. simpl. exact (Happ _ _ Hrun).
Qed.

Lemma state_fixed_after_startup_witness :
  ∃ schema,
    srv_proc (snd (run (Disk ∅ ∅) [Request "GET" "/openapi.json" [] "";
                                   Request "POST" "/auth/token" [] ""]))
    = set_app (set_openapi_schema schema app)
              (match fst (run (Disk ∅ ∅) [Request "GET" "/openapi.json" [] "";
                                          Request "POST" "/auth/token" [] ""]) with
               | [] => imported (Disk ∅ ∅)
               | _ :: _ => snd (create_db_and_tables (imported (Disk ∅ ∅)))
               end).
Proof.
  apply (state_fixed_after_startup (Disk ∅ ∅)).
  apply run_execution.
Defined.

(** X9. The server gets to serve exactly when the database file can be
    opened: the start-up completes from the boot if and only if
    [database.db] is not among the paths that cannot be opened. *)
Theorem startup_completes_iff_openable (d : disk) :
  (∃ s, step (boot d) StartupComplete s) ↔ sqlite_file_name ∉ unopenable d.
Proof.
  split.
  - intros [s Hstep] Hin.
    inversion Hstep as [s0 st1 _ Hrun| |]; subst. simpl in Hrun.
    rewrite (lifespan_startup_app (imported d) eq_refl) in Hrun.
    unfold create_db_and_tables in Hrun.
    rewrite (create_all_unopenable SQLModel_metadata (imported d) Hin) in Hrun. discriminate.
  - intros Hout. eexists. apply step_startup_complete; [reflexivity|].
    simpl. rewrite (lifespan_startup_app (imported d) eq_refl).
    by apply create_db_and_tables_effect.
Qed.

Section SessionRequests.

(** The session a request gets is a new one. *)
Lemma connected_new_session st :
  connected (length (proc_sessions st))
            (set_sessions (proc_sessions st ++ [MkSession false]) st) = false.
Proof.
  unfold connected. simpl. rewrite lookup_app_r by lia. by rewrite Nat.sub_diag.
Qed.

(** Releasing a session that holds no connection does nothing. *)
Lemma Session_release_unconnected session st :
  connected session st = false → Session_release session st = (Ok tt, st).
Proof. intros Hc. unfold Session_release. unfold_M. by rewrite Hc. Qed.

(** What the generator returns when it is resumed does not depend on the
    state: closing the session never fails. *)
Lemma Session_release_returns session st :
  ∃ st1, Session_release session st = (Ok tt, st1)
         ∧ proc_disk st1 = proc_disk st
         ∧ engine_database (proc_engine st1) = engine_database (proc_engine st).
Proof.
  unfold Session_release, pool_checkin. unfold_M.
  destruct (connected session st) eqn:Hc; by eexists.
Qed.

Lemma get_session_resume_result session how st :
  fst (get_session_resume session how st)
  = match how with Sent_throw e => Raise e | _ => Ok tt end.
Proof.
  unfold get_session_resume, with_Session, Session_close. unfold_M.
  destruct (Session_release_returns session st) as (st1 & Hrel & _).
  destruct how as [|e|]; [|destruct e|]; simpl; by rewrite Hrel.
Qed.

Lemma get_session_resume_unconnected session how st :
  connected session st = false →
  get_session_resume session how st
  = (match how with Sent_throw e => Raise e | _ => Ok tt end, st).
Proof.
  intros Hc. unfold get_session_resume, with_Session, Session_close. unfold_M.
  pose proof (Session_release_unconnected _ _ Hc) as Hrel.
  destruct how as [|e|]; [|destruct e|]; simpl; by rewrite Hrel.
Qed.

(** The outcome of a request is the outcome of its handler: [get_session]
    neither swallows nor replaces it. *)
Lemma call_with_SessionDep_result h st :
  fst (call_with_SessionDep h st)
  = fst (run_handler h (length (proc_sessions st))
                     (set_sessions (proc_sessions st ++ [MkSession false]) st)).
Proof.
  destruct (request_with_session h st) as (out & st1 & Hrun & _ & _ & Hexit).
  destruct (Hexit (exit_of out)) as (st2 & _ & _ & _ & _ & Hcall).
  by rewrite Hrun, (Hcall eq_refl).
Qed.

Lemma call_with_SessionDep_released h st :
  ∃ r st',
    call_with_SessionDep h st = (r, st')
    ∧ balanced (length (proc_sessions st)) (engine_checkedout (proc_engine st))
               (proc_sessions st ++ [MkSession false]) st'
    ∧ connected (length (proc_sessions st)) st' = false
    ∧ engine_checkedout (proc_engine st') = engine_checkedout (proc_engine st).
Proof.
  destruct (request_with_session h st) as (out & st1 & _ & _ & _ & Hexit).
  destruct (Hexit (exit_of out)) as (st2 & _ & Hb2 & Hc & Hp & Hcall).
  exists out, st2. by rewrite (Hcall eq_refl).
Qed.

(** Without a use of the session, the operations of a handler do nothing. *)
Lemma run_ops_no_exec session ops : ∀ st,
  Op_exec ∉ ops → connected session st = false →
  run_ops session ops st = (Ok tt, st).
Proof.
  induction ops as [|op rest IH]; intros st Hno Hc; [reflexivity|].
  apply not_elem_of_cons in Hno as [Hop Hrest].
  simpl. unfold_M.
  assert (run_op session op st = (Ok tt, st)) as ->
    by (destruct op; [done|..]; by apply Session_release_unconnected).
  by apply IH.
Qed.

(** On storage that cannot be opened, the first use of the session
    raises. *)
Lemma run_ops_unopenable session ops : ∀ st,
  db_path st ∈ unopenable (proc_disk st) →
  Op_exec ∈ ops → connected session st = false →
  run_ops session ops st = (Raise (OperationalError "unable to open database file"), st).
Proof.
  induction ops as [|op rest IH]; intros st Hin Hex Hc; [by apply elem_of_nil in Hex|].
  simpl. unfold_M. destruct op.
  - simpl. unfold Session_connection, pool_checkout. unfold_M. rewrite Hc.
    fold (db_path st). by rewrite (sqlite3_connect_unopenable _ _ Hin).
  - simpl. rewrite (Session_release_unconnected _ _ Hc).
    apply elem_of_cons in Hex as [?|Hex]; [discriminate|]. by apply IH.
  - simpl. rewrite (Session_release_unconnected _ _ Hc).
    apply elem_of_cons in Hex as [?|Hex]; [discriminate|]. by apply IH.
  - simpl. rewrite (Session_release_unconnected _ _ Hc).
    apply elem_of_cons in Hex as [?|Hex]; [discriminate|]. by apply IH.
Qed.

(** On storage that can be opened, no operation on the session raises. *)
Lemma run_op_openable session op st :
  db_path st ∉ unopenable (proc_disk st) →
  ∃ st1, run_op session op st = (Ok tt, st1)
         ∧ db_path st1 ∉ unopenable (proc_disk st1).
Proof.
  intros Hopen.
  assert (∃ st1, Session_release session st = (Ok tt, st1)
                 ∧ db_path st1 ∉ unopenable (proc_disk st1)) as Hrel.
  { destruct (Session_release_returns session st) as (st1 & -> & Hd & He).
    exists st1. split; [reflexivity|]. unfold db_path. by rewrite He, Hd. }
  destruct op; simpl; [|exact Hrel..].
  unfold Session_connection, pool_checkout. unfold_M.
  destruct (connected session st); [by eexists|].
  fold (db_path st).
  destruct (sqlite3_connect_openable st Hopen) as (sc & -> & G & _ & _).
  eexists. split; [reflexivity|]. simpl.
  destruct G. unfold db_path in *. simpl. by rewrite grown_engine0, grown_unopenable0.
Qed.

Lemma run_ops_openable session ops : ∀ st,
  db_path st ∉ unopenable (proc_disk st) →
  ∃ st1, run_ops session ops st = (Ok tt, st1).
Proof.
  induction ops as [|op rest IH]; intros st Hopen; [by eexists|].
  simpl. unfold_M.
  destruct (run_op_openable session op st Hopen) as (st1 & -> & Hopen1).
  by apply IH.
Qed.

End SessionRequests.

(** A cancelled request that has used its session: the handler leaves the
    session holding a connection, the generator is closed, not thrown
    into, and the connection is back in the pool afterwards. *)
Example cancelled_request_closes_session :
  exit_of (Raise CancelledError) = Sent_close
  ∧ connected 0 (snd (run_handler (Handler [Op_exec] Cancelled) 0
                        (snd (get_session_start (imported (Disk ∅ ∅)))))) = true
  ∧ engine_checkedout
      (proc_engine (snd (run_handler (Handler [Op_exec] Cancelled) 0
                           (snd (get_session_start (imported (Disk ∅ ∅))))))) = 1
  ∧ fst (call_with_SessionDep (Handler [Op_exec] Cancelled) (imported (Disk ∅ ∅)))
    = Raise CancelledError
  ∧ proc_sessions (snd (call_with_SessionDep (Handler [Op_exec] Cancelled)
                                             (imported (Disk ∅ ∅))))
    = [MkSession false]
  ∧ engine_checkedout
      (proc_engine (snd (call_with_SessionDep (Handler [Op_exec] Cancelled)
                                              (imported (Disk ∅ ∅))))) = 0.
Proof. repeat split. Qed.

(** X10. Any number of requests that depend on [get_session], handled one
    after the other, whatever their handlers do and however they end (a
    return resumes the generator, an error is thrown into it, a
    cancellation leaves it to be closed), leak nothing: the pool has as many connections out as before the first,
    every request got a session of its own, the sessions that existed before
    are untouched, and every session made for a request is closed. *)
Theorem sequential_requests_leak_nothing (hs : list handler) (st : process) :
  length (fst (call_each_with_SessionDep hs st)) = length hs
  ∧ engine_checkedout (proc_engine (snd (call_each_with_SessionDep hs st)))
    = engine_checkedout (proc_engine st)
  ∧ length (proc_sessions (snd (call_each_with_SessionDep hs st)))
    = length (proc_sessions st) + length hs
  ∧ (∀ i, i < length (proc_sessions st) →
       proc_sessions (snd (call_each_with_SessionDep hs st)) !! i = proc_sessions st !! i)
  ∧ (∀ i, length (proc_sessions st) ≤ i →
       connected i (snd (call_each_with_SessionDep hs st)) = false).
Proof.
  revert st. induction hs as [|h rest IH]; intros st.
  - simpl. split; [reflexivity|]. split; [reflexivity|]. split; [lia|]. split; [done|].
    intros i Hi. unfold connected. by rewrite lookup_ge_None_2.
  - simpl.
    destruct (call_with_SessionDep_released h st) as (r & st1 & -> & [Hlt _ Hoth] & Hc & Hp).
    specialize (IH st1).
    destruct (call_each_with_SessionDep rest st1) as [rs st2]. simpl in *.
    destruct IH as (Hlen & Hpool & Hsess & Hframe & Hclosed).
    assert (length (proc_sessions st1) = S (length (proc_sessions st))) as Hlen1.
    { assert (proc_sessions st1 !! S (length (proc_sessions st)) = None) as Hnone.
      { rewrite Hoth by lia. apply lookup_ge_None_2. rewrite length_app. simpl. lia. }
      apply lookup_ge_None_1 in Hnone. lia. }
    split; [by rewrite Hlen|]. split; [congruence|]. split; [lia|]. split.
    + intros i Hi. rewrite Hframe by lia. rewrite Hoth by lia. by apply lookup_app_l.
    + intros i Hi. destruct (decide (i = length (proc_sessions st))) as [->|Hne].
      * unfold connected in *. rewrite Hframe by lia. exact Hc.
      * apply Hclosed. lia.
Qed.

(** X11. [get_session] opens nothing by itself: a request whose handler
    never uses its session ends as the handler ends, and the only change to
    the state is the new, closed, session; the disk and the pool are not
    touched. *)
Theorem unused_session_touches_nothing (h : handler) (st : process) :
  Op_exec ∉ handler_ops h →
  call_with_SessionDep h st
  = (completion_result (handler_end h),
     set_sessions (proc_sessions st ++ [MkSession false]) st).
Proof.
  intros Hno.
  pose proof (connected_new_session st) as Hc.
  unfold call_with_SessionDep, get_session_start, Session_new, run_handler. unfold_M.
  rewrite (run_ops_no_exec _ _ _ Hno Hc).
  destruct (handler_end h) as [content|e|]; simpl;
    rewrite (get_session_resume_unconnected _ _ _ Hc); try reflexivity.
  by destruct (is_Exception e).
Qed.

Lemma unused_session_touches_nothing_witness :
  call_with_SessionDep (Handler [Op_commit; Op_close] (Raises (HTTPException 403 "Forbidden")))
                       (imported (Disk ∅ ∅))
  = (completion_result
       (handler_end (Handler [Op_commit; Op_close] (Raises (HTTPException 403 "Forbidden")))),
     set_sessions (proc_sessions (imported (Disk ∅ ∅)) ++ [MkSession false])
                  (imported (Disk ∅ ∅))).
Proof.
  apply (unused_session_touches_nothing
           (Handler [Op_commit; Op_close] (Raises (HTTPException 403 "Forbidden")))
           (imported (Disk ∅ ∅))).
  simpl. intros Hin.
  repeat (apply elem_of_cons in Hin as [Hin|Hin]; [discriminate|]).
  by apply elem_of_nil in Hin.
Defined.

(** X12. Where the database file can be opened, [get_session] hands the
    outcome of the handler on as it is: the value it returns, the exception
    it raises, or the cancellation; closing the session neither swallows nor
    replaces it. *)
Theorem handler_outcome_passed_on (h : handler) (st : process) :
  db_path st ∉ unopenable (proc_disk st) →
  fst (call_with_SessionDep h st) = completion_result (handler_end h).
Proof.
  intros Hopen. rewrite call_with_SessionDep_result.
  unfold run_handler. unfold_M.
  destruct (run_ops_openable (length (proc_sessions st)) (handler_ops h)
              (set_sessions (proc_sessions st ++ [MkSession false]) st) Hopen) as (st1 & ->).
  by destruct (handler_end h).
Qed.

Lemma handler_outcome_passed_on_witness :
  fst (call_with_SessionDep
         (Handler [Op_exec; Op_commit; Op_exec] (Raises (HTTPException 404 "Hero not found")))
         (imported (Disk ∅ ∅)))
  = completion_result
      (handler_end
         (Handler [Op_exec; Op_commit; Op_exec] (Raises (HTTPException 404 "Hero not found")))).
Proof.
  apply (handler_outcome_passed_on
           (Handler [Op_exec; Op_commit; Op_exec] (Raises (HTTPException 404 "Hero not found")))
           (imported (Disk ∅ ∅))).
  vm_compute. discriminate.
Defined.

(** X13. Where the database file cannot be opened, a request whose handler
    uses its session ends in the driver's [OperationalError] at the first
    use, whatever the handler would have gone on to do, and the state is
    left with nothing but the new, closed, session. *)
Theorem unopenable_storage_fails_request (h : handler) (st : process) :
  db_path st ∈ unopenable (proc_disk st) →
  Op_exec ∈ handler_ops h →
  call_with_SessionDep h st
  = (Raise (OperationalError "unable to open database file"),
     set_sessions (proc_sessions st ++ [MkSession false]) st).
Proof.
  intros Hin Hex.
  pose proof (connected_new_session st) as Hc.
  unfold call_with_SessionDep, get_session_start, Session_new, run_handler. unfold_M.
  rewrite (run_ops_unopenable (length (proc_sessions st)) (handler_ops h)
             (set_sessions (proc_sessions st ++ [MkSession false]) st) Hin Hex Hc). simpl.
  by rewrite (get_session_resume_unconnected _ _ _ Hc).
Qed.

Lemma unopenable_storage_fails_request_witness :
  call_with_SessionDep (Handler [Op_exec; Op_commit] (Returns (JObj [("ok", JStr "true")])))
                       (imported (Disk ∅ {["database.db"]}))
  = (Raise (OperationalError "unable to open database file"),
     set_sessions (proc_sessions (imported (Disk ∅ {["database.db"]})) ++ [MkSession false])
                  (imported (Disk ∅ {["database.db"]}))).
Proof.
  apply (unopenable_storage_fails_request
           (Handler [Op_exec; Op_commit] (Returns (JObj [("ok", JStr "true")])))
           (imported (Disk ∅ {["database.db"]}))).
  - vm_compute. reflexivity.
  - simpl. by left.
Defined.
